(** * moeviz: routing-trace capture server, shallow embedding

    Sources embedded here:
    - [src/moeviz/server.py]: the module-level queues [tokens_queue] and
      [routing_queue], the probes [get_token] / [get_experts], the relay task
      [process_routing_queue], the request handler [generate_text],
      [process_router_logits] and [load_model] with its cache [loaded_models];
    - [src/moeviz/model_adapters.py]: [ModelAdapter.__init__],
      [ModelAdapter.process_router_logits], [ModelAdapter.resolve_module_path],
      [ModelAdapter.get_router_path] (with [str.format]), the probes of
      [ModelAdapter.get_token_hook] and of the [get_router_hook] methods,
      [ModelAdapter.register_hooks] and [get_model_adapter];
    - [src/moeviz/config.py]: [MODEL_CONFIGS] and [get_client_config].

    Floating-point tensors are modelled with exact rationals [Q]; the
    exponential used by [F.softmax] is an abstract strictly increasing positive
    function [exp]; [torch.topk] is modelled by its contract [topk_ok]: a
    result of [torch.topk] is any index list that it may return. *)

From Stdlib Require Import String Ascii List ZArith QArith Bool Lia.
From Stdlib Require Import DecimalString Lqa.
Import ListNotations.

Close Scope Q_scope.
Open Scope string_scope.
Open Scope list_scope.
Open Scope nat_scope.

(** ** Tensors of router logits *)

(** A router output is a 2-D [(tokens, n_experts)] or a 3-D tensor. *)
Inductive tensor : Type :=
| T2 (m : list (list Q))
| T3 (c : list (list (list Q))).

(** Index tensors returned by [torch.topk] along the last dimension. *)
Inductive sel_tensor : Type :=
| S2 (m : list (list nat))
| S3 (c : list (list (list nat))).

(** Transpose of a rectangular matrix (the width is the first row's). *)
Definition transpose {A : Type} (d : A) (m : list (list A)) : list (list A) :=
  match m with
  | [] => []
  | r :: _ => map (fun j => map (fun row => nth j row d) m) (seq 0 (length r))
  end.

(** Python's negative-dimension convention: [dim = -1] is the last axis. *)
Definition resolve_dim (rank : nat) (d : Z) : option nat :=
  let d' := if (d <? 0)%Z then (d + Z.of_nat rank)%Z else d in
  if ((0 <=? d') && (d' <? Z.of_nat rank))%Z then Some (Z.to_nat d') else None.

Section Softmax.

(** The exponential of [F.softmax]. *)
Variable exp : Q -> Q.

(** [softmax] of one vector: [exp x_i / sum_j exp x_j]. *)
Definition softmax (row : list Q) : list Q :=
  let s := fold_right Qplus 0%Q (map exp row) in
  map (fun x => (exp x / s)%Q) row.

(** [F.softmax(t, dim=d)]: normalisation along the axis [d]. *)
Definition softmax_dim (d : Z) (t : tensor) : option tensor :=
  match t with
  | T2 m =>
      match resolve_dim 2 d with
      | Some 0 => Some (T2 (transpose 0%Q (map softmax (transpose 0%Q m))))
      | Some 1 => Some (T2 (map softmax m))
      | _ => None
      end
  | T3 c =>
      match resolve_dim 3 d with
      | Some 0 =>
          Some (T3 (transpose []
                  (map (fun m => transpose 0%Q (map softmax (transpose 0%Q m)))
                       (transpose [] c))))
      | Some 1 => Some (T3 (map (fun m => transpose 0%Q (map softmax (transpose 0%Q m))) c))
      | Some 2 => Some (T3 (map (map softmax) c))
      | _ => None
      end
  end.

End Softmax.

(** ** The contract of [torch.topk] along the last dimension *)

Fixpoint nodupb (l : list nat) : bool :=
  match l with
  | [] => true
  | x :: r => negb (existsb (Nat.eqb x) r) && nodupb r
  end.

Fixpoint sorted_desc (l : list Q) : bool :=
  match l with
  | x :: ((y :: _) as r) => Qle_bool y x && sorted_desc r
  | _ => true
  end.

(** [r] is a possible [torch.topk(ws, k).indices] ([sorted=True]): [k] distinct
    in-range indices, listed by non-increasing weight, none of the omitted
    indices weighing more than a selected one.  When [k] exceeds the length
    [torch.topk] raises, and no [r] is accepted.  Ties are not resolved by the
    contract: torch documents no order among equal values. *)
Definition topk_ok (ws : list Q) (k : nat) (r : list nat) : bool :=
  (k <=? length ws) && (length r =? k) && nodupb r
  && forallb (fun i => i <? length ws) r
  && sorted_desc (map (fun i => nth i ws 0%Q) r)
  && forallb (fun j => existsb (Nat.eqb j) r
                       || forallb (fun i => Qle_bool (nth j ws 0%Q) (nth i ws 0%Q)) r)
             (seq 0 (length ws)).

Fixpoint forall2b {A B : Type} (f : A -> B -> bool) (l1 : list A) (l2 : list B) : bool :=
  match l1, l2 with
  | [], [] => true
  | x :: r1, y :: r2 => f x y && forall2b f r1 r2
  | _, _ => false
  end.

(** [torch.topk(w, k, dim=-1)] applied to a whole tensor. *)
Definition topk_last_ok (w : tensor) (k : nat) (s : sel_tensor) : bool :=
  match w, s with
  | T2 m, S2 sm => forall2b (fun row r => topk_ok row k r) m sm
  | T3 c, S3 sc => forall2b (forall2b (fun row r => topk_ok row k r)) c sc
  | _, _ => false
  end.

Section RouterLogits.

Variable exp : Q -> Q.

(** server.py, [process_router_logits(router_logits, top_k)]:
    [F.softmax(router_logits, dim=1)] then [torch.topk(.., top_k, dim=-1)];
    [sel] is a possible value of [selected_experts]. *)
Definition process_router_logits_ok (router_logits : tensor) (top_k : nat)
    (sel : sel_tensor) : bool :=
  match softmax_dim exp 1 router_logits with
  | Some routing_weights => topk_last_ok routing_weights top_k sel
  | None => false
  end.

End RouterLogits.

(** ** Configuration and adapters (config.py, model_adapters.py) *)

(** Values of the configuration dictionaries. *)
Inductive pyval : Type :=
| PInt (z : Z)
| PStr (s : string).

(** A Python [dict] with string keys, in insertion order. *)
Definition pydict := list (string * pyval).

Fixpoint dict_get (key : string) (d : pydict) : option pyval :=
  match d with
  | [] => None
  | (k, v) :: r => if String.eqb k key then Some v else dict_get key r
  end.

(** [d.get(key, default)] *)
Definition dict_get_default (key : string) (default : pyval) (d : pydict) : pyval :=
  match dict_get key d with Some v => v | None => default end.

(** config.py, [MODEL_CONFIGS] *)
Definition MODEL_CONFIGS : list (string * pydict) :=
  [ ("qwen-1.5-moe-a2.7b",
      [ ("name", PStr "Qwen1.5-MoE-A2.7B"); ("expert_count", PInt 60);
        ("path", PStr "Qwen/Qwen1.5-MoE-A2.7B"); ("model_type", PStr "qwen");
        ("router_type", PStr "gate");
        ("router_location", PStr "model.layers[{layer_id}].mlp.gate");
        ("top_k", PInt 4) ]);
    ("mixtral-8x7b",
      [ ("name", PStr "Mixtral-8x7B"); ("expert_count", PInt 8);
        ("path", PStr "mistralai/Mixtral-8x7B-v0.1"); ("model_type", PStr "mixtral");
        ("router_type", PStr "router");
        ("router_location", PStr "model.layers[{layer_id}].block_sparse_moe.gate");
        ("top_k", PInt 2) ]) ].

Fixpoint lookup_config (model_id : string) (l : list (string * pydict)) : option pydict :=
  match l with
  | [] => None
  | (k, c) :: r => if String.eqb k model_id then Some c else lookup_config model_id r
  end.

(** [ModelAdapter]: the attributes set by [__init__]. *)
Record ModelAdapter : Type := {
  config : pydict;
  top_k : pyval;
  model_type : pyval
}.

(** [ModelAdapter.__init__(config)] *)
Definition ModelAdapter_init (cfg : pydict) : ModelAdapter :=
  {| config := cfg;
     top_k := dict_get_default "top_k" (PInt 2) cfg;
     model_type := dict_get_default "model_type" (PStr "unknown") cfg |}.

Section AdapterLogits.

Variable exp : Q -> Q.

(** [ModelAdapter.process_router_logits(self, router_logits)]:
    [F.softmax(router_logits, dim=-1)] then [torch.topk(.., self.top_k, dim=-1)].
    A [top_k] that is not a non-negative integer makes [torch.topk] raise. *)
Definition ModelAdapter_process_router_logits_ok (self : ModelAdapter)
    (router_logits : tensor) (sel : sel_tensor) : bool :=
  match top_k self with
  | PInt k =>
      (0 <=? k)%Z &&
      match softmax_dim exp (-1) router_logits with
      | Some routing_weights => topk_last_ok routing_weights (Z.to_nat k) sel
      | None => false
      end
  | PStr _ => false
  end.

End AdapterLogits.

(** ** server.py: global state, probes, relay task, request handler *)

#[local] Set Warnings "-register-all".

Module Server.

(** JSON values carried by [sio.emit]. *)
Inductive json : Type :=
| JInt (z : Z)
| JStr (s : string)
| JList (l : list json).

(** A [routing_data] dict, keys in insertion order. *)
Definition routing_data := list (string * json).

Fixpoint json_get (key : string) (d : routing_data) : option json :=
  match d with
  | [] => None
  | (k, v) :: r => if String.eqb k key then Some v else json_get key r
  end.

(** [tokenizer.decode([t])]; [None] when it raises. *)
Definition tokenizer := Z -> option string.

(** [f"{t}"] for an integer. *)
Definition z_to_string (t : Z) : string := NilZero.string_of_int (Z.to_int t).

(** The decoding loop of the router hook ([tokens] is always a list). *)
Definition decode_tokens (tok : tokenizer) (tokens : list Z) : list string :=
  map (fun t => match tok t with
                | Some token_str => token_str
                | None => "[ERROR:" ++ z_to_string t ++ "]"
                end%string) tokens.

(** Probes registered on the model: a forward pre-hook on [embed_tokens]
    or a forward hook on [layers[layer_id].mlp.gate]. *)
Inductive hook_kind : Type :=
| TokenHook
| RouterHook (layer_id : nat).

Record hook_handle : Type := { hid : nat; hkind : hook_kind }.

(** What [sio.emit] publishes to the connected clients. *)
Inductive emitted : Type :=
| RoutingUpdate (d : routing_data)
| GenerationComplete.

(** Module-level state of server.py: the two [Queue]s, the hooks registered
    on the loaded model whose forward passes run (see [generate_text_start]),
    the global [current_tokenizer] and the emitted stream. *)
Record state : Type := {
  tokens_queue : list (list Z);
  routing_queue : list routing_data;
  hooks : list hook_handle;
  next_hid : nat;
  current_tokenizer : option tokenizer;
  published : list emitted
}.

Definition set_tokens_queue (q : list (list Z)) (st : state) : state :=
  {| tokens_queue := q; routing_queue := routing_queue st; hooks := hooks st;
     next_hid := next_hid st; current_tokenizer := current_tokenizer st;
     published := published st |}.

Definition set_routing_queue (q : list routing_data) (st : state) : state :=
  {| tokens_queue := tokens_queue st; routing_queue := q; hooks := hooks st;
     next_hid := next_hid st; current_tokenizer := current_tokenizer st;
     published := published st |}.

Definition set_tokenizer (t : option tokenizer) (st : state) : state :=
  {| tokens_queue := tokens_queue st; routing_queue := routing_queue st;
     hooks := hooks st; next_hid := next_hid st; current_tokenizer := t;
     published := published st |}.

Definition set_hooks (hs : list hook_handle) (st : state) : state :=
  {| tokens_queue := tokens_queue st; routing_queue := routing_queue st;
     hooks := hs; next_hid := next_hid st; current_tokenizer := current_tokenizer st;
     published := published st |}.

(** [sio.emit(..)] *)
Definition emit (e : emitted) (st : state) : state :=
  {| tokens_queue := tokens_queue st; routing_queue := routing_queue st;
     hooks := hooks st; next_hid := next_hid st;
     current_tokenizer := current_tokenizer st; published := published st ++ [e] |}.

(** [module.register_forward_(pre_)hook(..)]: returns the new handle. *)
Definition register_hook (k : hook_kind) (st : state) : state * nat :=
  let h := next_hid st in
  ({| tokens_queue := tokens_queue st; routing_queue := routing_queue st;
      hooks := hooks st ++ [{| hid := h; hkind := k |}]; next_hid := S h;
      current_tokenizer := current_tokenizer st; published := published st |}, h).

(** [handle.remove()]: idempotent. *)
Definition remove_hook (h : nat) (st : state) : state :=
  set_hooks (filter (fun x => negb (Nat.eqb (hid x) h)) (hooks st)) st.

(** [input[0].squeeze().tolist()] for a batch of one sequence. *)
Inductive squeezed : Type :=
| Scalar (z : Z)
| Vector (l : list Z).

Definition squeeze_tolist (input_ids : list Z) : squeezed :=
  match input_ids with
  | [z] => Scalar z
  | _ => Vector input_ids
  end.

(** [get_token()]'s hook: [tokens_queue.put(tokens)]. *)
Definition get_token_hook (input_ids : list Z) (st : state) : state :=
  let tokens := match squeeze_tolist input_ids with
                | Scalar z => [z]
                | Vector l => l
                end in
  set_tokens_queue (tokens_queue st ++ [tokens]) st.

(** [get_experts(layer_id)] hard-codes [top_k=4]. *)
Definition get_experts_top_k : nat := 4.

(** The value [selected_experts] may take in [get_experts]'s hook. *)
Definition get_experts_selection_ok (exp : Q -> Q) (output : tensor)
    (selected_experts : sel_tensor) : bool :=
  process_router_logits_ok exp output get_experts_top_k selected_experts.

Definition sel_to_json (s : sel_tensor) : json :=
  let row r := JList (map (fun i => JInt (Z.of_nat i)) r) in
  match s with
  | S2 m => JList (map row m)
  | S3 c => JList (map (fun m => JList (map row m)) c)
  end.

(** [get_experts(layer_id)]'s hook, given [selected_experts]
    ([= process_router_logits(output, top_k=4)]).  [tokens_queue.get()]
    blocks on an empty queue: [None] is a hook that does not return. *)
Definition get_experts_hook (layer_id : nat) (selected_experts : sel_tensor)
    (st : state) : option state :=
  match tokens_queue st with
  | [] => None
  | tokens :: rest =>
      let routing_data0 :=
        [ ("layer_id", JInt (Z.of_nat layer_id));
          ("tokens", JList (map JInt tokens));
          ("selected_experts", sel_to_json selected_experts) ] in
      let routing_data1 :=
        match current_tokenizer st with
        | Some tok =>
            routing_data0 ++ [("decoded_tokens", JList (map JStr (decode_tokens tok tokens)))]
        | None => routing_data0
        end in
      Some (set_routing_queue (routing_queue st ++ [routing_data1])
              (set_tokens_queue rest st))
  end.

(** The dict built by [get_experts]'s hook. *)
Definition record_of (l : nat) (sel : sel_tensor) (tok : option tokenizer)
    (tokens : list Z) : routing_data :=
  let d0 := [ ("layer_id", JInt (Z.of_nat l)); ("tokens", JList (map JInt tokens));
              ("selected_experts", sel_to_json sel) ] in
  match tok with
  | Some t => d0 ++ [("decoded_tokens", JList (map JStr (decode_tokens t tokens)))]
  | None => d0
  end.

(** One forward pass of the model: the pre-hooks of [embed_tokens] run in
    registration order, then the hooks of the layer-0 gate. *)
Definition forward_step (input_ids : list Z) (selected_experts : sel_tensor)
    (st : state) : option state :=
  let st1 := fold_left (fun s h => match hkind h with
                                   | TokenHook => get_token_hook input_ids s
                                   | RouterHook _ => s
                                   end) (hooks st) st in
  fold_left (fun os h => match os, hkind h with
                         | Some s, RouterHook l => get_experts_hook l selected_experts s
                         | _, _ => os
                         end) (hooks st) (Some st1).

(** The first half of a forward pass: the pre-hooks of [embed_tokens]. *)
Definition embed_pre_hooks (input_ids : list Z) (st : state) : state :=
  fold_left (fun s h => match hkind h with
                        | TokenHook => get_token_hook input_ids s
                        | RouterHook _ => s
                        end) (hooks st) st.

(** The second half, when the pass reaches the layer-0 gate: the hooks
    registered on it by then. *)
Definition gate_hooks (selected_experts : sel_tensor) (st : state) : option state :=
  fold_left (fun os h => match os, hkind h with
                         | Some s, RouterHook l => get_experts_hook l selected_experts s
                         | _, _ => os
                         end) (hooks st) (Some st).

(** Successive forward passes of one [model.generate] call. *)
Fixpoint run_forwards (steps : list (list Z * sel_tensor)) (st : state) : option state :=
  match steps with
  | [] => Some st
  | (ids, sel) :: rest =>
      match forward_step ids sel st with
      | Some st' => run_forwards rest st'
      | None => None
      end
  end.

(** One iteration of [process_routing_queue]'s loop (the sleep aside). *)
Definition process_routing_queue_step (st : state) : state :=
  match routing_queue st with
  | [] => st
  | data :: rest => emit (RoutingUpdate data) (set_routing_queue rest st)
  end.


(** [tokens_queue.empty()]: a test, its result unused by the handler. *)
Definition Queue_empty {A : Type} (q : list A) : bool :=
  match q with [] => true | _ => false end.

Inductive start_result : Type :=
| Started (st : state) (token_hook router_hook : nat)
| StartFailed (st : state).

Section StartOn.

(** Model objects with attribute and item access; [None] stands for the
    AttributeError or IndexError Python raises. *)
Variable Obj : Type.
Variable getattr : Obj -> string -> option Obj.
Variable getitem : Obj -> Z -> option Obj.

(** [model.model.embed_tokens] *)
Definition embed_tokens_of (model : Obj) : option Obj :=
  match getattr model "model" with
  | Some core => getattr core "embed_tokens"
  | None => None
  end.

(** [model.model.layers[i].mlp.gate] *)
Definition layer_gate_of (model : Obj) (i : Z) : option Obj :=
  match getattr model "model" with
  | None => None
  | Some core =>
      match getattr core "layers" with
      | None => None
      | Some layers =>
          match getitem layers i with
          | None => None
          | Some layer =>
              match getattr layer "mlp" with
              | None => None
              | Some mlp => getattr mlp "gate"
              end
          end
      end
  end.

(** [generate_text], up to the [await] of the generation, on the model object
    and tokenizer [load_model(model_id)] returns; [None] when it raises or
    returns [None] (the unpacking then raises): the request fails before any
    hook.  The token pre-hook is registered before [model.model.layers[0].mlp.gate]
    is looked up: on a model without it (Mixtral's layers hold
    [block_sparse_moe]) the request raises AttributeError with the token
    pre-hook left registered. *)
Definition generate_text_start_on (loaded : option (Obj * tokenizer)) (st : state)
    : start_result :=
  let _ := Queue_empty (tokens_queue st) in
  match loaded with
  | None => StartFailed st
  | Some (model, tok) =>
      let st1 := set_tokenizer (Some tok) st in
      let i := 0%Z in
      match embed_tokens_of model with
      | None => StartFailed st1
      | Some _ =>
          let '(st2, token_hook) := register_hook TokenHook st1 in
          match layer_gate_of model i with
          | None => StartFailed st2
          | Some _ =>
              let '(st3, router_hook) := register_hook (RouterHook (Z.to_nat i)) st2 in
              Started st3 token_hook router_hook
          end
      end
  end.

End StartOn.

(** [generate_text_start_on] for a model of the Qwen layout, where
    [model.model.embed_tokens] and [model.model.layers[0].mlp.gate] both
    exist; [loaded] is the tokenizer of [load_model(model_id)].  The state's
    hooks are those of that one model. *)
Definition generate_text_start (loaded : option tokenizer) (st : state) : start_result :=
  let _ := Queue_empty (tokens_queue st) in
  match loaded with
  | None => StartFailed st
  | Some tok =>
      let st1 := set_tokenizer (Some tok) st in
      let '(st2, token_hook) := register_hook TokenHook st1 in
      let '(st3, router_hook) := register_hook (RouterHook 0) st2 in
      Started st3 token_hook router_hook
  end.

(** How the [run_in_executor] call of [model.generate] ends. *)
Inductive gen_outcome : Type :=
| GenReturned
| GenRaised.

Inductive response : Type :=
| Message
| Raised.

(** [generate_text] after the [await]: on return, [sio.emit('generation_complete')]
    then [token_hook.remove()] and [router_hook.remove()]; an exception of the
    generation propagates out of the handler at the [await]. *)
Definition generate_text_finish (g : gen_outcome) (token_hook router_hook : nat)
    (st : state) : state * response :=
  match g with
  | GenRaised => (st, Raised)
  | GenReturned =>
      let st1 := emit GenerationComplete st in
      let st2 := remove_hook token_hook st1 in
      (remove_hook router_hook st2, Message)
  end.

(** The server as a whole: its module-level state and the handles held by the
    [generate_text] coroutines still in flight. *)
Record system : Type := { srv : state; inflight : list (nat * nat) }.

Definition init_state : state :=
  {| tokens_queue := []; routing_queue := []; hooks := []; next_hid := 0;
     current_tokenizer := None; published := [] |}.

Definition init_system : system := {| srv := init_state; inflight := [] |}.

Section System.

Variable exp : Q -> Q.

(** Interleavings of request handlers, the generation thread and the relay
    task [process_routing_queue].  The forward passes run on one loaded model
    of the Qwen layout.  A request for a model without
    [layers[0].mlp.gate] sets [current_tokenizer], registers a token pre-hook
    on that other model and raises before its generation
    ([generate_text_start_on]), so that model never runs a forward pass.
    [SysForward] is a whole forward pass; [SysEmbed] and [SysGate] are its two
    halves, between which other handlers may run, and after the first of which
    the pass may raise (an out-of-memory error in layer 0's attention). *)
Inductive sys_step : system -> system -> Prop :=
| SysRequest tok s s' th rh fl :
    generate_text_start (Some tok) s = Started s' th rh ->
    sys_step {| srv := s; inflight := fl |} {| srv := s'; inflight := fl ++ [(th, rh)] |}
| SysRequestOther tok s fl :
    sys_step {| srv := s; inflight := fl |} {| srv := set_tokenizer (Some tok) s; inflight := fl |}
| SysForward ids output sel s s' fl :
    fl <> [] ->
    get_experts_selection_ok exp output sel = true ->
    forward_step ids sel s = Some s' ->
    sys_step {| srv := s; inflight := fl |} {| srv := s'; inflight := fl |}
| SysEmbed ids s fl :
    fl <> [] ->
    sys_step {| srv := s; inflight := fl |} {| srv := embed_pre_hooks ids s; inflight := fl |}
| SysGate output sel s s' fl :
    fl <> [] ->
    get_experts_selection_ok exp output sel = true ->
    gate_hooks sel s = Some s' ->
    sys_step {| srv := s; inflight := fl |} {| srv := s'; inflight := fl |}
| SysRelay s fl :
    routing_queue s <> [] ->
    sys_step {| srv := s; inflight := fl |}
             {| srv := process_routing_queue_step s; inflight := fl |}
| SysFinish g th rh s fl1 fl2 :
    sys_step {| srv := s; inflight := fl1 ++ (th, rh) :: fl2 |}
             {| srv := fst (generate_text_finish g th rh s); inflight := fl1 ++ fl2 |}.

Inductive reachable : system -> Prop :=
| reach_init : reachable init_system
| reach_step x y : reachable x -> sys_step x y -> reachable y.

End System.

End Server.

(** ** model_adapters.py: [ModelAdapter.resolve_module_path] *)

Module PathResolver.

Definition lbracket : ascii := "[".
Definition rbracket : ascii := "]".
Definition dot : ascii := ".".

(** [ch in path] for a character. *)
Fixpoint str_contains (ch : ascii) (s : string) : bool :=
  match s with
  | EmptyString => false
  | String c r => Ascii.eqb c ch || str_contains ch r
  end.

(** A tokenised step: an attribute name, or the index lambda built from
    [eval(bracket_content)]. *)
Inductive part : Type :=
| PAttr (name : string)
| PEvalIndex (bracket_content : string).

(** The inner [while j < len(path) and path[j] != ']'] loop: the bracket
    content and what follows the closing bracket, or [None] when there is none. *)
Fixpoint scan_bracket (s : string) : option (string * string) :=
  match s with
  | EmptyString => None
  | String c r =>
      if Ascii.eqb c rbracket then Some (EmptyString, r)
      else match scan_bracket r with
           | Some (content, rest) => Some (String c content, rest)
           | None => None
           end
  end.

Definition flush (current : string) (parts : list part) : list part :=
  if String.eqb current "" then parts else parts ++ [PAttr current].

(** The outer [while i < len(path)] loop; [fuel] bounds its iterations
    (each consumes at least one character). *)
Fixpoint split_parts (fuel : nat) (s : string) (current : string) (parts : list part)
    : list part :=
  match fuel with
  | O => flush current parts
  | S fuel' =>
      match s with
      | EmptyString => flush current parts
      | String c r =>
          if Ascii.eqb c lbracket then
            let parts1 := flush current parts in
            match scan_bracket r with
            | Some (bracket_content, rest) =>
                split_parts fuel' rest "" (parts1 ++ [PEvalIndex bracket_content])
            | None => split_parts fuel' r (String.append "" (String c "")) parts1
            end
          else if Ascii.eqb c dot then split_parts fuel' r "" (flush current parts)
          else split_parts fuel' r (String.append current (String c "")) parts
      end
  end.

(** [path.split('.')] *)
Fixpoint split_dots_aux (s : string) (cur : string) : list string :=
  match s with
  | EmptyString => [cur]
  | String c r =>
      if Ascii.eqb c dot then cur :: split_dots_aux r ""
      else split_dots_aux r (String.append cur (String c ""))
  end.

Definition split_dots (s : string) : list string := split_dots_aux s "".

(** The steps [resolve_module_path] takes for [path]. *)
Definition path_parts (path : string) : list part :=
  if str_contains lbracket path && str_contains rbracket path
  then split_parts (S (String.length path)) path "" []
  else map PAttr (split_dots path).

(** A non-negative integer literal: one or more decimal digits. *)
Definition is_digit (c : ascii) : bool :=
  let n := nat_of_ascii c in (48 <=? n) && (n <=? 57).

Definition is_nonneg_int_literal (s : string) : bool :=
  negb (String.eqb s "") && forallb is_digit (list_ascii_of_string s).

(** The bracket contents that [path_parts] hands to [eval], in order. *)
Fixpoint index_contents (ps : list part) : list string :=
  match ps with
  | [] => []
  | PAttr _ :: r => index_contents r
  | PEvalIndex c :: r => c :: index_contents r
  end.

(** The path [t1[c1]t2[c2]...] built from segments [(t, c)]. *)
Fixpoint bracket_path (segs : list (string * string)) : string :=
  match segs with
  | [] => ""
  | (t, c) :: r => (t ++ String "[" (c ++ String "]" (bracket_path r)))%string
  end.

Section Resolve.

(** Python objects, the values [eval] returns, attribute and item access and
    [eval] itself; [None] stands for a raised exception. *)
Variables (Obj Val : Type).
Variable getattr : Obj -> string -> option Obj.
Variable getitem : Obj -> Val -> option Obj.
Variable py_eval : string -> option Val.

Inductive step : Type :=
| SAttr (name : string)
| SIndex (idx : Val).

(** [eval] runs while the path is tokenised, before any access. *)
Fixpoint eval_parts (ps : list part) : option (list step) :=
  match ps with
  | [] => Some []
  | PAttr n :: r =>
      match eval_parts r with Some l => Some (SAttr n :: l) | None => None end
  | PEvalIndex c :: r =>
      match py_eval c with
      | Some v => match eval_parts r with Some l => Some (SIndex v :: l) | None => None end
      | None => None
      end
  end.

Fixpoint walk (obj : Obj) (steps : list step) : option Obj :=
  match steps with
  | [] => Some obj
  | SAttr n :: r => match getattr obj n with Some o => walk o r | None => None end
  | SIndex v :: r => match getitem obj v with Some o => walk o r | None => None end
  end.

(** [s] is the step [eval_parts] makes of the part [p]. *)
Definition part_step (p : part) (s : step) : Prop :=
  match p, s with
  | PAttr n, SAttr n' => n = n'
  | PEvalIndex c, SIndex v => py_eval c = Some v
  | _, _ => False
  end.

(** [ModelAdapter.resolve_module_path(self, model, path)] *)
Definition resolve_module_path (model : Obj) (path : string) : option Obj :=
  match eval_parts (path_parts path) with
  | Some steps => walk model steps
  | None => None
  end.

End Resolve.

End PathResolver.

(** ** Python helpers shared by the remaining functions *)

(** Exceptions raised by the embedded code. *)
Inductive exc : Type :=
| ValueError
| AttributeError.

Inductive py_result (A : Type) : Type :=
| Ok (a : A)
| Raise (e : exc).

Arguments Ok {A} a.
Arguments Raise {A} e.

(** A Python [dict] with string keys and values of any type: lookup, and
    [d[k] = v] (in place for a present key, appended otherwise). *)
Fixpoint assoc_get {V : Type} (k : string) (d : list (string * V)) : option V :=
  match d with
  | [] => None
  | (k', v) :: r => if String.eqb k' k then Some v else assoc_get k r
  end.

Fixpoint assoc_set {V : Type} (k : string) (v : V) (d : list (string * V)) : list (string * V) :=
  match d with
  | [] => [(k, v)]
  | (k', v') :: r => if String.eqb k' k then (k', v) :: r else (k', v') :: assoc_set k v r
  end.

(** [str.lower()] on a string of code points below 256: [A]-[Z] and the
    Latin-1 capitals U+00C0..U+00DE (U+00D7 aside) move 32 code points up. *)
Definition py_lower_char (c : ascii) : ascii :=
  let n := nat_of_ascii c in
  if ((65 <=? n) && (n <=? 90)) || ((192 <=? n) && (n <=? 222) && negb (n =? 215))
  then ascii_of_nat (n + 32) else c.

Fixpoint py_lower (s : string) : string :=
  match s with
  | EmptyString => EmptyString
  | String c r => String (py_lower_char c) (py_lower r)
  end.

(** [s] has none of the characters [cs]. *)
Fixpoint no_char_in (cs : list ascii) (s : string) : bool :=
  match s with
  | EmptyString => true
  | String c r => negb (existsb (Ascii.eqb c) cs) && no_char_in cs r
  end.

(** ** model_adapters.py: factory, router paths, probes, registration *)

Module Adapters.

Inductive adapter_class : Type :=
| ModelAdapterBase
| QwenMoEAdapter
| MixtralAdapter.

(** An adapter object: its class and the attributes set by [__init__]. *)
Record adapter : Type := { aclass : adapter_class; ainst : ModelAdapter }.

(** [get_model_adapter(model_config)]; an [int] [model_type] has no
    [lower()] and raises [AttributeError]. *)
Definition get_model_adapter (model_config : pydict) : py_result adapter :=
  match dict_get_default "model_type" (PStr "") model_config with
  | PStr s =>
      let model_type := py_lower s in
      if String.eqb model_type "qwen" then
        Ok {| aclass := QwenMoEAdapter; ainst := ModelAdapter_init model_config |}
      else if String.eqb model_type "mixtral" then
        Ok {| aclass := MixtralAdapter; ainst := ModelAdapter_init model_config |}
      else Raise ValueError
  | PInt _ => Raise AttributeError
  end.

(** *** [str.format(layer_id=..)] *)

(** Outcome of [template.format(layer_id=v)]: the string, a raised exception,
    or a replacement field with a conversion ([!]), a format spec ([:]) or an
    attribute or index access on [layer_id], which are not embedded. *)
Inductive fmt_result : Type :=
| FmtOk (s : string)
| FmtRaises
| FmtUnmodelled.

Definition fmt_prepend (p : string) (r : fmt_result) : fmt_result :=
  match r with
  | FmtOk s => FmtOk (p ++ s)
  | _ => r
  end.

(** A field name's first part runs to the first [.] or [[]. *)
Fixpoint split_field_name (s : string) : string * string :=
  match s with
  | EmptyString => (EmptyString, EmptyString)
  | String c r =>
      if Ascii.eqb c "."%char || Ascii.eqb c "["%char then (EmptyString, s)
      else let '(first, rest) := split_field_name r in (String c first, rest)
  end.

(** The value of the field [{field_name}]: the only argument is the keyword
    [layer_id], rendered [v]; an empty or numeric first part asks for a
    positional argument ([IndexError]), any other name raises [KeyError]. *)
Definition field_value (v field_name : string) : fmt_result :=
  let '(first, rest) := split_field_name field_name in
  if String.eqb first "layer_id" then
    (if String.eqb rest "" then FmtOk v else FmtUnmodelled)
  else FmtRaises.

(** States of CPython's [MarkupIterator]: literal text, just after a [{],
    just after a [}], in a field name, in a [[..]] of a field name. *)
Inductive fmode : Type :=
| Lit
| AfterOpen
| AfterClose
| InField (name : string)
| InFieldBracket (name : string).

(** One character of a field name ([parse_field]): [{] raises, [[] skips to
    the next [\]], [}] ends the field, [:] and [!] start a conversion or spec. *)
Definition field_step (v name : string) (c : ascii) : (string * fmode) + fmt_result :=
  if Ascii.eqb c "{"%char then inr FmtRaises
  else if Ascii.eqb c "["%char then inl (EmptyString, InFieldBracket (name ++ "["))
  else if Ascii.eqb c "}"%char then
    match field_value v name with
    | FmtOk s => inl (s, Lit)
    | r => inr r
    end
  else if Ascii.eqb c ":"%char || Ascii.eqb c "!"%char then inr FmtUnmodelled
  else inl (EmptyString, InField (name ++ String c EmptyString)).

(** One character of the template: the text it outputs and the next state,
    or how formatting ends. *)
Definition fmt_step (v : string) (m : fmode) (c : ascii) : (string * fmode) + fmt_result :=
  match m with
  | Lit =>
      if Ascii.eqb c "{"%char then inl (EmptyString, AfterOpen)
      else if Ascii.eqb c "}"%char then inl (EmptyString, AfterClose)
      else inl (String c EmptyString, Lit)
  | AfterOpen =>
      if Ascii.eqb c "{"%char then inl ("{", Lit) else field_step v EmptyString c
  | AfterClose =>
      if Ascii.eqb c "}"%char then inl ("}", Lit) else inr FmtRaises
  | InField name => field_step v name c
  | InFieldBracket name =>
      if Ascii.eqb c "]"%char then inl (EmptyString, InField (name ++ "]"))
      else inl (EmptyString, InFieldBracket (name ++ String c EmptyString))
  end.

(** At the end of the template only the literal state is accepted: a single
    [{] or [}] or an unterminated field raises [ValueError]. *)
Fixpoint format_aux (v : string) (m : fmode) (s : string) : fmt_result :=
  match s with
  | EmptyString =>
      match m with
      | Lit => FmtOk EmptyString
      | _ => FmtRaises
      end
  | String c r =>
      match fmt_step v m c with
      | inl (out, m') => fmt_prepend out (format_aux v m' r)
      | inr res => res
      end
  end.

(** [template.format(layer_id=layer_id)] *)
Definition format_layer_id (template : string) (layer_id : Z) : fmt_result :=
  format_aux (Server.z_to_string layer_id) Lit template.

(** [ModelAdapter.get_router_path(self, layer_id)]; an [int]
    [router_location] has no [format()]. *)
Definition get_router_path (self : ModelAdapter) (layer_id : Z) : fmt_result :=
  match dict_get_default "router_location" (PStr "") (config self) with
  | PStr router_location => format_layer_id router_location layer_id
  | PInt _ => FmtRaises
  end.

(** A template with no brace, and a field name that is a plain identifier. *)
Definition brace_free (s : string) : bool := no_char_in ["{"; "}"]%char s.

Definition plain_field_name (s : string) : bool :=
  no_char_in ["{"; "}"; "["; ":"; "!"; "."]%char s.

(** *** Probes *)

(** [ModelAdapter.get_token_hook(token_queue)]'s hook: [token_queue.put(tokens)]. *)
Definition adapter_token_hook (input_ids : list Z) (token_queue : list (list Z))
    : list (list Z) :=
  let tokens := match Server.squeeze_tolist input_ids with
                | Server.Scalar z => [z]
                | Server.Vector l => l
                end in
  token_queue ++ [tokens].

(** The [routing_data] dict built by the router hook of [QwenMoEAdapter] and
    of [MixtralAdapter]. *)
Definition adapter_routing_data (layer_id : Z) (selected_experts : sel_tensor)
    (tokenizer : option Server.tokenizer) (tokens : list Z) : Server.routing_data :=
  let routing_data :=
    [ ("layer_id", Server.JInt layer_id); ("tokens", Server.JList (map Server.JInt tokens));
      ("selected_experts", Server.sel_to_json selected_experts) ] in
  match tokenizer with
  | Some tok =>
      routing_data
      ++ [("decoded_tokens", Server.JList (map Server.JStr (Server.decode_tokens tok tokens)))]
  | None => routing_data
  end.

(** The router hook of [QwenMoEAdapter] and [MixtralAdapter] (they differ only
    in the logits they pass to [process_router_logits]), given
    [selected_experts], on the two queues it closes over; [None]:
    [token_queue.get()] blocks. *)
Definition adapter_router_hook (layer_id : Z) (tokenizer : option Server.tokenizer)
    (selected_experts : sel_tensor) (token_queue : list (list Z))
    (routing_queue : list Server.routing_data)
    : option (list (list Z) * list Server.routing_data) :=
  match token_queue with
  | [] => None
  | tokens :: rest =>
      Some (rest, routing_queue ++ [adapter_routing_data layer_id selected_experts tokenizer tokens])
  end.

(** *** [ModelAdapter.register_hooks] *)


Section Register.

(** Python objects, attribute and item access, [eval], and whether an object
    is an [nn.Module] (has [register_forward_(pre_)hook]); [None]: raises. *)
Variables (Obj Val : Type).
Variable getattr : Obj -> string -> option Obj.
Variable getitem : Obj -> Val -> option Obj.
Variable py_eval : string -> option Val.
Variable is_module : Obj -> bool.






End Register.

End Adapters.

(** ** server.py: [load_model] and its cache [loaded_models] *)

Module Loader.

Section Load.

Variables (Model Tok : Type).

Inductive load_result : Type :=
| LoadRaised (e : exc)
| LoadReturned (v : option (Model * Tok)).

(** [load_model(model_id)] with the cache [loaded_models] before the call;
    [from_pretrained_model] and [from_pretrained_tokenizer] are the outcomes
    of [AutoModelForCausalLM.from_pretrained] and
    [AutoTokenizer.from_pretrained] on the path ([None]: they raise).  Every
    exception of the [try] block (a missing ["path"] key included) is caught
    and turned into [None]. *)
Definition load_model (configs : list (string * pydict))
    (loaded_models : list (string * (Model * Tok))) (model_id : string)
    (from_pretrained_model : pyval -> option Model)
    (from_pretrained_tokenizer : pyval -> option Tok)
    : load_result * list (string * (Model * Tok)) :=
  match lookup_config model_id configs with
  | None => (LoadRaised ValueError, loaded_models)
  | Some cfg =>
      match assoc_get model_id loaded_models with
      | Some v => (LoadReturned (Some v), loaded_models)
      | None =>
          match dict_get "path" cfg with
          | None => (LoadReturned None, loaded_models)
          | Some model_name =>
              match from_pretrained_model model_name with
              | None => (LoadReturned None, loaded_models)
              | Some model =>
                  match from_pretrained_tokenizer model_name with
                  | None => (LoadReturned None, loaded_models)
                  | Some tokenizer =>
                      let loaded_models' := assoc_set model_id (model, tokenizer) loaded_models in
                      (LoadReturned (assoc_get model_id loaded_models'), loaded_models')
                  end
              end
          end
      end
  end.

(** [model, tokenizer = load_model(model_id)] in [generate_text]: the
    tokenizer, or [None] when the call raises or returns [None]. *)
Definition unpack_tokenizer (res : load_result) : option Tok :=
  match res with
  | LoadReturned (Some (_, tokenizer)) => Some tokenizer
  | _ => None
  end.

End Load.

Arguments LoadRaised {Model Tok} e.
Arguments LoadReturned {Model Tok} v.

End Loader.

(** ** config.py: [get_client_config] *)

Module ClientConfig.

(** The JSON returned by the [/config] endpoint. *)
Inductive cjson : Type :=
| CStr (s : string)
| CInt (z : Z)
| CObj (fields : list (string * cjson)).

Definition cjson_of (v : pyval) : cjson :=
  match v with
  | PInt z => CInt z
  | PStr s => CStr s
  end.

(** The dict comprehension over [MODEL_CONFIGS.items()], built entry by
    entry; [config["name"]] or [config["expert_count"]] missing raises
    [KeyError] ([None]). *)
Fixpoint models_comprehension (items : list (string * pydict)) (acc : list (string * cjson))
    : option (list (string * cjson)) :=
  match items with
  | [] => Some acc
  | (model_id, config) :: r =>
      match dict_get "name" config with
      | None => None
      | Some name =>
          match dict_get "expert_count" config with
          | None => None
          | Some expert_count =>
              models_comprehension r
                (assoc_set model_id
                   (CObj [("name", cjson_of name); ("expertCount", cjson_of expert_count)]) acc)
          end
      end
  end.

(** [get_client_config()], [BASE_URL] being the module constant. *)
Definition get_client_config (BASE_URL : string) (configs : list (string * pydict))
    : option cjson :=
  match models_comprehension configs [] with
  | Some models => Some (CObj [("serverUrl", CStr BASE_URL); ("models", CObj models)])
  | None => None
  end.

End ClientConfig.

(** ** Rows of the emitted routing records *)

Module Rows.

Import Server.

(** Every token row of [selected_experts] lists [k] experts. *)
Definition sel_rows_have (k : nat) (s : sel_tensor) : Prop :=
  match s with
  | S2 m => Forall (fun r => length r = k) m
  | S3 c => Forall (Forall (fun r => length r = k)) c
  end.

(** A routing record whose [selected_experts] has rows of [k] experts. *)
Definition record_rows_have (k : nat) (d : routing_data) : Prop :=
  exists sel, json_get "selected_experts" d = Some (sel_to_json sel) /\ sel_rows_have k sel.

(** The same of every record still queued and every record published. *)
Definition emitted_rows_have (k : nat) (st : state) : Prop :=
  Forall (record_rows_have k) (routing_queue st)
  /\ Forall (fun e => match e with
                      | RoutingUpdate d => record_rows_have k d
                      | GenerationComplete => True
                      end) (published st).

End Rows.

(** A strictly increasing positive function on [Q], used to instantiate
    [exp] when the theorems are evaluated on concrete inputs. *)
Definition exp_model (x : Q) : Q :=
  (if Qle_bool 0 x then 1 + x else 1 / (1 - x))%Q.

(** ** Concrete inputs *)

(** A tokenizer whose [decode] succeeds on every id. *)
Definition demo_tokenizer : Server.tokenizer := fun t => Some (Server.z_to_string t).

(** The server state once a first request has installed its probes. *)
Definition demo_state : Server.state :=
  match Server.generate_text_start (Some demo_tokenizer) Server.init_state with
  | Server.Started st _ _ => st
  | Server.StartFailed st => st
  end.

(** A Qwen-shaped model object graph: [model.model.embed_tokens],
    [model.model.layers[i].mlp.gate] for 24 layers; every object is a module. *)
Inductive toy_obj : Type :=
| TModel
| TCore
| TEmbed
| TLayers
| TLayer (i : Z)
| TMlp (i : Z)
| TGate (i : Z).

Definition toy_getattr (o : toy_obj) (name : string) : option toy_obj :=
  match o with
  | TModel => if String.eqb name "model" then Some TCore else None
  | TCore =>
      if String.eqb name "embed_tokens" then Some TEmbed
      else if String.eqb name "layers" then Some TLayers else None
  | TLayer i => if String.eqb name "mlp" then Some (TMlp i) else None
  | TMlp i => if String.eqb name "gate" then Some (TGate i) else None
  | _ => None
  end.

(** The same object graph with Mixtral's layer layout: a layer holds its
    router at [block_sparse_moe.gate] and has no [mlp]. *)
Definition toy_mixtral_getattr (o : toy_obj) (name : string) : option toy_obj :=
  match o with
  | TLayer i => if String.eqb name "block_sparse_moe" then Some (TMlp i) else None
  | _ => toy_getattr o name
  end.

Definition toy_getitem (o : toy_obj) (v : Z) : option toy_obj :=
  match o with
  | TLayers => if ((0 <=? v) && (v <? 24))%Z then Some (TLayer v) else None
  | _ => None
  end.




(** * Properties *)

Section SoftmaxOrder.

Variable exp : Q -> Q.
Hypothesis exp_pos : forall x, (0 < exp x)%Q.
Hypothesis exp_mono : forall x y, (x < y)%Q -> (exp x < exp y)%Q.

Lemma sum_exp_pos (l : list Q) : l <> [] -> (0 < fold_right Qplus 0 (map exp l))%Q.
Proof.
  induction l as [|x r IH]; intros H; [congruence|].
  simpl. destruct r as [|y r'].
  - simpl. rewrite Qplus_0_r. apply exp_pos.
  - specialize (IH ltac:(discriminate)).
    apply (Qlt_trans _ (exp x)); [apply exp_pos|].
    rewrite <- (Qplus_0_r (exp x)) at 1. apply Qplus_lt_r. exact IH.
Qed.

Lemma div_lt_mono (a b s : Q) : (0 < s)%Q -> (a < b)%Q -> (a / s < b / s)%Q.
Proof.
  intros Hs Hab. unfold Qdiv. apply Qmult_lt_r; [apply Qinv_lt_0_compat; exact Hs|exact Hab].
Qed.

End SoftmaxOrder.

Lemma topk_ok_strict4 (w0 w1 w2 w3 : Q) (a b : nat) :
  (w1 < w0)%Q -> (w2 < w1)%Q -> (w3 < w2)%Q ->
  topk_ok [w0; w1; w2; w3] 2 [a; b] = true -> a = 0 /\ b = 1.
Proof.
  intros H10 H21 H32 H.
  assert (H20 : (w2 < w0)%Q) by (eapply Qlt_trans; eauto).
  assert (H31 : (w3 < w1)%Q) by (eapply Qlt_trans; eauto).
  assert (H30 : (w3 < w0)%Q) by (eapply Qlt_trans; eauto).
  assert (F : forall x y, (x < y)%Q -> Qle_bool y x = false /\ Qle_bool x y = true).
  { intros x y Hxy. split.
    - apply Bool.not_true_is_false. intros Hle. apply Qle_bool_iff in Hle.
      apply (Qlt_not_le _ _ Hxy Hle).
    - apply Qle_bool_iff. apply Qlt_le_weak. exact Hxy. }
  destruct (F _ _ H10) as [E01 E10]. destruct (F _ _ H21) as [E12 E21].
  destruct (F _ _ H32) as [E23 E32]. destruct (F _ _ H20) as [E02 E20].
  destruct (F _ _ H31) as [E13 E31]. destruct (F _ _ H30) as [E03 E30].
  assert (R : forall x, Qle_bool x x = true) by (intros x; apply Qle_bool_iff, Qle_refl).
  unfold topk_ok in H.
  destruct a as [|[|[|[|a]]]]; destruct b as [|[|[|[|b]]]];
    cbn -[Qle_bool] in H;
    rewrite ?E01, ?E10, ?E12, ?E21, ?E23, ?E32, ?E02, ?E20, ?E13, ?E31, ?E03, ?E30, ?R in H;
    cbn in H; try discriminate; auto.
  destruct (Nat.eqb a b); cbn in H; discriminate.
Qed.

Lemma softmax_dim_T2_1 (exp : Q -> Q) (m : list (list Q)) :
  softmax_dim exp 1 (T2 m) = Some (T2 (map (softmax exp) m)).
Proof. reflexivity. Qed.

Lemma softmax_dim_T2_last (exp : Q -> Q) (m : list (list Q)) :
  softmax_dim exp (-1) (T2 m) = Some (T2 (map (softmax exp) m)).
Proof. reflexivity. Qed.

Lemma topk_ok_all_equal4 (w : Q) (a b : nat) :
  topk_ok [w; w; w; w] 2 [a; b] = (a <? 4) && (b <? 4) && negb (a =? b).
Proof.
  assert (R : Qle_bool w w = true) by (apply Qle_bool_iff, Qle_refl).
  unfold topk_ok.
  destruct a as [|[|[|[|a]]]]; destruct b as [|[|[|[|b]]]];
    cbn -[Qle_bool]; rewrite ?R; cbn; try reflexivity.
  destruct (Nat.eqb a b); reflexivity.
Qed.

(** C6 (amended). [process_router_logits] on the logits [2.0, 1.0, 0.5, 0.1]
    with [k = 2] can only return the experts [[0, 1]]; on four equal logits
    with [k = 2] every pair of distinct experts is a possible result: the
    code adds no tie-break of its own to [torch.topk]. *)
Theorem process_router_logits_examples (exp : Q -> Q)
    (exp_pos : forall x, (0 < exp x)%Q)
    (exp_mono : forall x y, (x < y)%Q -> (exp x < exp y)%Q) :
  (forall sel, process_router_logits_ok exp (T2 [[2; 1; 1#2; 1#10]%Q]) 2 sel = true ->
               sel = S2 [[0; 1]])
  /\ (forall (c : Q) (a b : nat),
        process_router_logits_ok exp (T2 [[c; c; c; c]]) 2 (S2 [[a; b]])
        = (a <? 4) && (b <? 4) && negb (a =? b)).
Proof.
  split.
  - intros sel H. unfold process_router_logits_ok in H.
    rewrite softmax_dim_T2_1 in H. cbn [map] in H.
    destruct sel as [m|c]; [|discriminate].
    destruct m as [|r [|r' m]]; cbn -[softmax topk_ok] in H;
      rewrite ?Bool.andb_false_r in H; try discriminate.
    rewrite Bool.andb_true_r in H.
    unfold softmax in H.
    set (s := fold_right Qplus 0%Q (map exp [2; 1; 1#2; 1#10]%Q)) in H.
    assert (Hs : (0 < s)%Q) by (apply sum_exp_pos; [exact exp_pos|discriminate]).
    destruct r as [|a [|b [|d r]]];
      try (unfold topk_ok in H; cbn -[Qle_bool s] in H; discriminate).
    cbn [map] in H.
    apply topk_ok_strict4 in H.
    + destruct H as [-> ->]. reflexivity.
    + apply div_lt_mono; [exact Hs|apply exp_mono; reflexivity].
    + apply div_lt_mono; [exact Hs|apply exp_mono; reflexivity].
    + apply div_lt_mono; [exact Hs|apply exp_mono; reflexivity].
  - intros c a b. unfold process_router_logits_ok.
    rewrite softmax_dim_T2_1. cbn -[softmax topk_ok].
    rewrite Bool.andb_true_r. unfold softmax. cbn [map].
    apply topk_ok_all_equal4.
Qed.

Lemma exp_model_pos (x : Q) : (0 < exp_model x)%Q.
Proof.
  unfold exp_model. destruct (Qle_bool 0 x) eqn:E.
  - apply Qle_bool_iff in E. lra.
  - assert (Hx : ~ (0 <= x)%Q) by (intro Hc; apply Qle_bool_iff in Hc; congruence).
    apply Qnot_le_lt in Hx. unfold Qdiv. rewrite Qmult_1_l.
    apply Qinv_lt_0_compat. lra.
Qed.

Lemma exp_model_mono (x y : Q) : (x < y)%Q -> (exp_model x < exp_model y)%Q.
Proof.
  intros Hxy. unfold exp_model.
  destruct (Qle_bool 0 x) eqn:Ex; destruct (Qle_bool 0 y) eqn:Ey;
    try apply Qle_bool_iff in Ex; try apply Qle_bool_iff in Ey.
  - lra.
  - exfalso. assert (Hy : ~ (0 <= y)%Q) by (intro Hc; apply Qle_bool_iff in Hc; congruence).
    apply Qnot_le_lt in Hy. lra.
  - assert (Hx : ~ (0 <= x)%Q) by (intro Hc; apply Qle_bool_iff in Hc; congruence).
    apply Qnot_le_lt in Hx. unfold Qdiv. rewrite Qmult_1_l.
    assert (Hi : (/ (1 - x) < / 1)%Q) by (apply (proj1 (Qinv_lt_contravar 1 (1 - x) ltac:(lra) ltac:(lra))); lra).
    change (/ 1)%Q with 1%Q in Hi. lra.
  - assert (Hx : ~ (0 <= x)%Q) by (intro Hc; apply Qle_bool_iff in Hc; congruence).
    assert (Hy : ~ (0 <= y)%Q) by (intro Hc; apply Qle_bool_iff in Hc; congruence).
    apply Qnot_le_lt in Hx. apply Qnot_le_lt in Hy. unfold Qdiv. rewrite !Qmult_1_l.
    apply (proj1 (Qinv_lt_contravar (1 - y) (1 - x) ltac:(lra) ltac:(lra))); lra.
Qed.

Lemma process_router_logits_examples_witness :
  (exists sel, process_router_logits_ok exp_model (T2 [[2; 1; 1#2; 1#10]%Q]) 2 sel = true
               /\ sel = S2 [[0; 1]])
  /\ process_router_logits_ok exp_model (T2 [[7; 7; 7; 7]%Q]) 2 (S2 [[2; 3]]) = true.
Proof.
  split.
  - exists (S2 [[0; 1]]).
    assert (H : process_router_logits_ok exp_model (T2 [[2; 1; 1#2; 1#10]%Q]) 2 (S2 [[0; 1]])
                = true) by (vm_compute; reflexivity).
    split; [exact H|].
    exact (proj1 (process_router_logits_examples exp_model exp_model_pos exp_model_mono) _ H).
  - rewrite (proj2 (process_router_logits_examples exp_model exp_model_pos exp_model_mono)).
    reflexivity.
Defined.

(** C6 counterexample: on four equal logits with [k = 2], [[1, 0]] is a
    result [torch.topk] may return, not the lowest-index pair [[0, 1]]. *)
Lemma process_router_logits_tie_counterexample :
  process_router_logits_ok exp_model (T2 [[1; 1; 1; 1]%Q]) 2 (S2 [[1; 0]]) = true
  /\ S2 [[1; 0]] <> S2 [[0; 1]].
Proof. split; [vm_compute; reflexivity|discriminate]. Qed.

(** C10 (amended). On every 2-D logits tensor, the server's
    [process_router_logits(router_logits, k)] and
    [ModelAdapter.process_router_logits] of an adapter whose [top_k] is [k]
    accept exactly the same selected experts. *)
Theorem router_logits_implementations_agree_2d (exp : Q -> Q) (self : ModelAdapter)
    (k : nat) (m : list (list Q)) (sel : sel_tensor) :
  top_k self = PInt (Z.of_nat k) ->
  process_router_logits_ok exp (T2 m) k sel
  = ModelAdapter_process_router_logits_ok exp self (T2 m) sel.
Proof.
  intros Hk. unfold process_router_logits_ok, ModelAdapter_process_router_logits_ok.
  rewrite Hk, softmax_dim_T2_1, softmax_dim_T2_last, Nat2Z.id.
  replace (0 <=? Z.of_nat k)%Z with true by (symmetry; apply Z.leb_le; lia).
  reflexivity.
Qed.

Lemma router_logits_implementations_agree_2d_witness :
  top_k (ModelAdapter_init [("top_k", PInt 4)]) = PInt (Z.of_nat 4)
  /\ process_router_logits_ok exp_model (T2 [[3; 1; 4; 1; 5]%Q]) 4 (S2 [[4; 2; 0; 1]])
     = ModelAdapter_process_router_logits_ok exp_model (ModelAdapter_init [("top_k", PInt 4)])
         (T2 [[3; 1; 4; 1; 5]%Q]) (S2 [[4; 2; 0; 1]]).
Proof.
  split; [reflexivity|].
  apply router_logits_implementations_agree_2d. reflexivity.
Defined.

(** C10 counterexample: the two copies are not one function: on a 3-D
    tensor the server normalises over dim 1 and the adapter over dim -1, and
    they select different experts. *)
Lemma router_logits_implementations_diverge_3d :
  process_router_logits_ok exp_model (T3 [[[1; 5]; [3; 6]]%Q]) 1 (S3 [[[1]; [0]]]) = true
  /\ ModelAdapter_process_router_logits_ok exp_model (ModelAdapter_init [("top_k", PInt 1)])
       (T3 [[[1; 5]; [3; 6]]%Q]) (S3 [[[1]; [0]]]) = false.
Proof. split; vm_compute; reflexivity. Qed.

Lemma topk_ok_length (ws : list Q) (k : nat) (r : list nat) :
  topk_ok ws k r = true -> length r = k.
Proof.
  unfold topk_ok. intros H.
  repeat (apply andb_prop in H; destruct H as [H ?]).
  apply Nat.eqb_eq. assumption.
Qed.

Lemma forall2b_topk_lengths (m : list (list Q)) (k : nat) (sel : list (list nat)) :
  forall2b (fun row r => topk_ok row k r) m sel = true -> Forall (fun r => length r = k) sel.
Proof.
  revert sel. induction m as [|row m IH]; intros [|r sel] H; try discriminate; auto.
  simpl in H. apply andb_prop in H as [H1 H2].
  constructor; [apply (topk_ok_length row); exact H1|apply IH; exact H2].
Qed.

Module ServerFacts.

Import Server.

Lemma get_token_hook_tokens (ids : list Z) (st : state) :
  get_token_hook ids st = set_tokens_queue (tokens_queue st ++ [ids]) st.
Proof.
  unfold get_token_hook, squeeze_tolist.
  destruct ids as [|z [|z' r]]; reflexivity.
Qed.

Lemma forward_step_one_session (ids : list Z) (sel : sel_tensor) (st : state)
    (h1 h2 l : nat) :
  hooks st = [{| hid := h1; hkind := TokenHook |}; {| hid := h2; hkind := RouterHook l |}] ->
  forward_step ids sel st
  = get_experts_hook l sel (set_tokens_queue (tokens_queue st ++ [ids]) st).
Proof.
  intros H. unfold forward_step. rewrite H. cbn [fold_left hkind].
  rewrite get_token_hook_tokens. reflexivity.
Qed.

Lemma get_experts_hook_pop (l : nat) (sel : sel_tensor) (st : state)
    (tokens : list Z) (rest : list (list Z)) :
  tokens_queue st = tokens :: rest ->
  get_experts_hook l sel st
  = Some (set_routing_queue (routing_queue st ++ [record_of l sel (current_tokenizer st) tokens])
            (set_tokens_queue rest st)).
Proof.
  intros H. unfold get_experts_hook. rewrite H. reflexivity.
Qed.

Lemma record_of_keys (l : nat) (sel : sel_tensor) (tok : option tokenizer) (tokens : list Z) :
  map fst (record_of l sel tok tokens)
  = ["layer_id"; "tokens"; "selected_experts"]
    ++ match tok with Some _ => ["decoded_tokens"] | None => [] end.
Proof. destruct tok; reflexivity. Qed.

(** C1 (amended). With one session's probes installed (the token pre-hook,
    then the router hook), N forward passes append exactly N records to
    [routing_queue], in step order.  The i-th record is the dict the router
    hook builds from the i-th pending token batch (the i-th pass's tokens
    when no batch was pending before) and the i-th pass's selected experts;
    its keys are [layer_id], [tokens], [selected_experts], then
    [decoded_tokens] when a tokenizer is set, and nothing else, so no
    [sequence_index]. *)
Theorem forward_steps_emit_one_record_each (steps : list (list Z * sel_tensor))
    (st : state) (h1 h2 l : nat) :
  hooks st = [{| hid := h1; hkind := TokenHook |}; {| hid := h2; hkind := RouterHook l |}] ->
  exists st' recs,
    run_forwards steps st = Some st'
    /\ routing_queue st' = routing_queue st ++ recs
    /\ length recs = length steps
    /\ recs = map (fun '(tokens, sel) => record_of l sel (current_tokenizer st) tokens)
                  (combine (firstn (length steps) (tokens_queue st ++ map fst steps))
                           (map snd steps))
    /\ tokens_queue st' = skipn (length steps) (tokens_queue st ++ map fst steps)
    /\ Forall (fun d => map fst d = ["layer_id"; "tokens"; "selected_experts"]
                                    ++ match current_tokenizer st with
                                       | Some _ => ["decoded_tokens"]
                                       | None => []
                                       end) recs.
Proof.
  revert st. induction steps as [|[ids sel] steps IH]; intros st Hh.
  - exists st, []. simpl. rewrite !app_nil_r.
    refine (conj eq_refl (conj eq_refl (conj eq_refl (conj eq_refl (conj eq_refl _))))).
    constructor.
  - destruct (tokens_queue st ++ [ids]) as [|tokens rest] eqn:Eq.
    { destruct (tokens_queue st); discriminate. }
    assert (Hstep : forward_step ids sel st
                    = Some (set_routing_queue
                              (routing_queue st ++ [record_of l sel (current_tokenizer st) tokens])
                              (set_tokens_queue rest st))).
    { rewrite (forward_step_one_session ids sel st h1 h2 l Hh).
      rewrite (get_experts_hook_pop _ _ _ tokens rest); [reflexivity|simpl; exact Eq]. }
    destruct (IH (set_routing_queue
                    (routing_queue st ++ [record_of l sel (current_tokenizer st) tokens])
                    (set_tokens_queue rest st)) Hh)
      as (st' & recs & Hrun & Hq & Hlen & Hrecs & Hrest & Hkeys).
    simpl in Hq, Hrecs, Hrest, Hkeys.
    exists st', (record_of l sel (current_tokenizer st) tokens :: recs).
    simpl run_forwards. rewrite Hstep.
    assert (Eq2 : tokens_queue st ++ map fst ((ids, sel) :: steps)
                  = tokens :: rest ++ map fst steps).
    { simpl. change (ids :: map fst steps) with ([ids] ++ map fst steps).
      rewrite app_assoc, Eq. reflexivity. }
    rewrite Eq2.
    refine (conj Hrun (conj _ (conj _ (conj _ (conj Hrest _))))).
    + rewrite Hq. rewrite <- app_assoc. reflexivity.
    + simpl. rewrite Hlen. reflexivity.
    + rewrite Hrecs. reflexivity.
    + constructor; [apply record_of_keys|exact Hkeys].
Qed.

Lemma forward_steps_emit_one_record_each_witness :
  hooks demo_state = [{| hid := 0; hkind := TokenHook |}; {| hid := 1; hkind := RouterHook 0 |}]
  /\ exists st', run_forwards [([151644; 872]%Z, S2 [[0; 1; 2; 3]; [4; 5; 6; 7]]);
                               ([198]%Z, S2 [[1; 2; 3; 4]])] demo_state = Some st'
                 /\ length (routing_queue st') = 2.
Proof.
  split; [reflexivity|].
  destruct (forward_steps_emit_one_record_each
              [([151644; 872]%Z, S2 [[0; 1; 2; 3]; [4; 5; 6; 7]]); ([198]%Z, S2 [[1; 2; 3; 4]])]
              demo_state 0 1 0 eq_refl) as (st' & recs & H1 & H2 & H3 & _).
  exists st'. split; [exact H1|]. rewrite H2, length_app, H3. reflexivity.
Defined.

(** C1 counterexample: the record emitted for a forward pass of a session
    has no [sequence_index] key. *)
Lemma routing_record_without_sequence_index :
  exists st' d, run_forwards [([42]%Z, S2 [[0; 1; 2; 3]])] demo_state = Some st'
                /\ routing_queue st' = [d] /\ json_get "sequence_index" d = None.
Proof. do 2 eexists. split; [reflexivity|split; reflexivity]. Qed.

(** C3 (amended). A router probe firing with an empty pending-token queue
    does not return: [tokens_queue.get()] blocks, so no error is counted and
    no record is emitted; a forward pass whose only probe is that router
    probe blocks with it. *)
Theorem router_hook_blocks_on_empty_queue (l h : nat) (sel : sel_tensor)
    (ids : list Z) (st : state) :
  tokens_queue st = [] ->
  get_experts_hook l sel st = None
  /\ (hooks st = [{| hid := h; hkind := RouterHook l |}] -> forward_step ids sel st = None).
Proof.
  intros Hq. unfold get_experts_hook. rewrite Hq. split; [reflexivity|].
  intros Hh. unfold forward_step. rewrite Hh. cbn [fold_left hkind].
  unfold get_experts_hook. rewrite Hq. reflexivity.
Qed.

Lemma router_hook_blocks_on_empty_queue_witness :
  tokens_queue (set_hooks [{| hid := 1; hkind := RouterHook 0 |}] demo_state) = []
  /\ forward_step [7]%Z (S2 [[0; 1; 2; 3]])
       (set_hooks [{| hid := 1; hkind := RouterHook 0 |}] demo_state) = None.
Proof.
  assert (Hq : tokens_queue (set_hooks [{| hid := 1; hkind := RouterHook 0 |}] demo_state) = [])
    by reflexivity.
  split; [exact Hq|].
  exact (proj2 (router_hook_blocks_on_empty_queue 0 1 (S2 [[0; 1; 2; 3]]) [7]%Z _ Hq)
               eq_refl).
Defined.

(** C3 counterexample: in a session state with no pending batch the router
    probe does not return at all. *)
Lemma router_hook_unpaired_counterexample :
  tokens_queue demo_state = [] /\ get_experts_hook 0 (S2 [[0; 1; 2; 3]]) demo_state = None.
Proof. split; reflexivity. Qed.

(** C4 (code_bug). A request whose generation call raises: the handler
    propagates the error with its token and router probes still registered,
    and the next forward pass still feeds the queues. *)
Theorem generate_text_failure_leaves_probes :
  exists st1 th rh,
    generate_text_start (Some demo_tokenizer) init_state = Started st1 th rh
    /\ generate_text_finish GenRaised th rh st1 = (st1, Raised)
    /\ length (hooks st1) = 2
    /\ exists st2, forward_step [7]%Z (S2 [[0; 1; 2; 3]]) st1 = Some st2
                   /\ length (routing_queue st2) = 1.
Proof.
  do 3 eexists. split; [reflexivity|]. split; [reflexivity|]. split; [reflexivity|].
  eexists. split; reflexivity.
Qed.

(** C5 (amended). When the generation returns, the handler emits
    [generation_complete] at once, leaving [routing_queue] as it is; a record
    still queued is published by the relay task after the completion marker. *)
Theorem generation_complete_not_after_drain (th rh : nat) (st : state) :
  let st' := fst (generate_text_finish GenReturned th rh st) in
  published st' = published st ++ [GenerationComplete]
  /\ routing_queue st' = routing_queue st
  /\ (forall d rest, routing_queue st = d :: rest ->
        published (process_routing_queue_step st')
        = published st ++ [GenerationComplete; RoutingUpdate d]).
Proof.
  simpl. split; [reflexivity|]. split; [reflexivity|].
  intros d rest Hq. unfold process_routing_queue_step. simpl. rewrite Hq. simpl.
  rewrite <- app_assoc. reflexivity.
Qed.

Lemma generation_complete_not_after_drain_witness :
  exists d st1,
    forward_step [7]%Z (S2 [[0; 1; 2; 3]]) demo_state = Some st1
    /\ routing_queue st1 = [d]
    /\ published (process_routing_queue_step (fst (generate_text_finish GenReturned 0 1 st1)))
       = published st1 ++ [GenerationComplete; RoutingUpdate d].
Proof.
  do 2 eexists. split; [reflexivity|]. split; [reflexivity|].
  apply (proj2 (proj2 (generation_complete_not_after_drain 0 1 _)) _ []). reflexivity.
Defined.

(** C5 counterexample: a reachable interleaving in which
    [generation_complete] has been published while a routing record is still
    queued (the relay task had not polled since the last probe). *)
Lemma completion_published_with_queued_record :
  exists sys, reachable exp_model sys
              /\ published (srv sys) = [GenerationComplete]
              /\ routing_queue (srv sys) <> [].
Proof.
  destruct (forward_step [7]%Z (S2 [[0; 1; 2; 3]]) demo_state) as [st1|] eqn:Ef;
    [|discriminate].
  exists {| srv := fst (generate_text_finish GenReturned 0 1 st1); inflight := [] |}.
  split.
  - apply (reach_step exp_model {| srv := st1; inflight := [] ++ (0, 1) :: [] |}).
    + apply (reach_step exp_model {| srv := demo_state; inflight := [(0, 1)] |}).
      * apply (reach_step exp_model init_system); [constructor|].
        exact (SysRequest exp_model demo_tokenizer init_state demo_state 0 1 [] eq_refl).
      * apply (SysForward exp_model [7]%Z (T2 [[4; 3; 2; 1]%Q]) (S2 [[0; 1; 2; 3]]));
          [discriminate|vm_compute; reflexivity|exact Ef].
    + apply (SysFinish exp_model GenReturned 0 1 st1 [] []).
  - injection Ef as <-. split; [reflexivity|discriminate].
Qed.

(** C7 (amended). [generate_text] has no busy check: whatever probes are
    already registered, a request is not rejected because of them, and they
    stay in place.  On a model where [model.model.layers[0].mlp.gate] exists
    (the Qwen layout) the request installs its token probe and then its
    router probe after them; on a model without it (the Mixtral layout) it
    raises AttributeError once its token probe alone is installed. *)
Theorem generate_text_start_no_busy_check (Obj : Type)
    (getattr : Obj -> string -> option Obj) (getitem : Obj -> Z -> option Obj)
    (model embed : Obj) (tok : tokenizer) (st : state) :
  embed_tokens_of Obj getattr model = Some embed ->
  (forall gate, layer_gate_of Obj getattr getitem model 0 = Some gate ->
     exists st' th rh,
       generate_text_start_on Obj getattr getitem (Some (model, tok)) st = Started st' th rh
       /\ hooks st' = hooks st ++ [{| hid := th; hkind := TokenHook |};
                                    {| hid := rh; hkind := RouterHook 0 |}])
  /\ (layer_gate_of Obj getattr getitem model 0 = None ->
      exists st',
        generate_text_start_on Obj getattr getitem (Some (model, tok)) st = StartFailed st'
        /\ hooks st' = hooks st ++ [{| hid := next_hid st; hkind := TokenHook |}]).
Proof.
  intros He. split.
  - intros gate Hg. do 3 eexists. split.
    + unfold generate_text_start_on. simpl. rewrite He. simpl. rewrite Hg. reflexivity.
    + simpl. rewrite <- app_assoc. reflexivity.
  - intros Hg. eexists. split.
    + unfold generate_text_start_on. simpl. rewrite He. simpl. rewrite Hg. reflexivity.
    + reflexivity.
Qed.

Lemma generate_text_start_no_busy_check_witness :
  embed_tokens_of toy_obj toy_mixtral_getattr TModel = Some TEmbed
  /\ layer_gate_of toy_obj toy_mixtral_getattr toy_getitem TModel 0 = None
  /\ exists st',
       generate_text_start_on toy_obj toy_mixtral_getattr toy_getitem
         (Some (TModel, demo_tokenizer)) demo_state = StartFailed st'
       /\ hooks st' = hooks demo_state ++ [{| hid := 2; hkind := TokenHook |}].
Proof.
  assert (He : embed_tokens_of toy_obj toy_mixtral_getattr TModel = Some TEmbed)
    by reflexivity.
  assert (Hg : layer_gate_of toy_obj toy_mixtral_getattr toy_getitem TModel 0 = None)
    by reflexivity.
  split; [exact He|]. split; [exact Hg|].
  exact (proj2 (generate_text_start_no_busy_check toy_obj toy_mixtral_getattr toy_getitem
                  TModel TEmbed demo_tokenizer demo_state He) Hg).
Defined.

(** C7 counterexample: a second request for the Qwen-layout model while the
    first session's probes are registered is not rejected; the model then
    carries two token probes and two router probes. *)
Lemma second_session_not_rejected :
  length (hooks demo_state) = 2
  /\ exists st' th rh,
       generate_text_start_on toy_obj toy_getattr toy_getitem
         (Some (TModel, demo_tokenizer)) demo_state = Started st' th rh
       /\ length (hooks st') = 4.
Proof. split; [reflexivity|]. do 3 eexists. split; reflexivity. Qed.

Lemma topk_last_rows (w : tensor) (k : nat) (s : sel_tensor) :
  topk_last_ok w k s = true -> Rows.sel_rows_have k s.
Proof.
  destruct w as [m|c], s as [sm|sc]; simpl; try discriminate.
  - apply forall2b_topk_lengths.
  - revert sc. induction c as [|m c IH]; intros [|sm sc] H; try discriminate.
    + constructor.
    + simpl in H. apply andb_prop in H as [H1 H2].
      constructor; [apply (forall2b_topk_lengths m); exact H1|apply IH; exact H2].
Qed.

Lemma selection_rows (exp : Q -> Q) (output : tensor) (sel : sel_tensor) :
  get_experts_selection_ok exp output sel = true -> Rows.sel_rows_have get_experts_top_k sel.
Proof.
  unfold get_experts_selection_ok, process_router_logits_ok.
  destruct (softmax_dim exp 1 output); [apply topk_last_rows|discriminate].
Qed.

Lemma get_experts_hook_rows (k l : nat) (sel : sel_tensor) (st st' : state) :
  Rows.sel_rows_have k sel -> Rows.emitted_rows_have k st ->
  get_experts_hook l sel st = Some st' -> Rows.emitted_rows_have k st'.
Proof.
  intros Hs [Hq Hp]. unfold get_experts_hook.
  destruct (tokens_queue st) as [|tokens rest]; [discriminate|].
  intros H. injection H as <-. split; simpl; [|exact Hp].
  apply Forall_app. split; [exact Hq|]. constructor; [|constructor].
  exists sel. split; [destruct (current_tokenizer st); reflexivity|exact Hs].
Qed.

Lemma gate_fold_rows (k : nat) (sel : sel_tensor) (hs : list hook_handle) :
  Rows.sel_rows_have k sel ->
  forall os st',
    fold_left (fun os h => match os, hkind h with
                           | Some s, RouterHook l => get_experts_hook l sel s
                           | _, _ => os
                           end) hs os = Some st' ->
    (forall s, os = Some s -> Rows.emitted_rows_have k s) ->
    Rows.emitted_rows_have k st'.
Proof.
  intros Hs. induction hs as [|h hs IH]; intros os st' Hf Hos; simpl in Hf.
  - apply Hos. exact Hf.
  - apply (IH _ _ Hf). intros s Es.
    destruct os as [s0|]; [|destruct (hkind h); discriminate Es].
    destruct (hkind h) as [|l].
    + apply Hos. exact Es.
    + apply (get_experts_hook_rows k l sel s0 s Hs); [apply Hos; reflexivity|exact Es].
Qed.

Lemma token_fold_keeps (ids : list Z) (hs : list hook_handle) (s : state) :
  let s' := fold_left (fun s h => match hkind h with
                                  | TokenHook => get_token_hook ids s
                                  | RouterHook _ => s
                                  end) hs s in
  routing_queue s' = routing_queue s /\ published s' = published s.
Proof.
  revert s. induction hs as [|h hs IH]; intros s; simpl; [split; reflexivity|].
  destruct (hkind h).
  - destruct (IH (get_token_hook ids s)) as [A B]. rewrite A, B, get_token_hook_tokens.
    split; reflexivity.
  - exact (IH s).
Qed.

Lemma token_fold_rows (k : nat) (ids : list Z) (hs : list hook_handle) (s : state) :
  Rows.emitted_rows_have k s ->
  Rows.emitted_rows_have k
    (fold_left (fun s h => match hkind h with
                           | TokenHook => get_token_hook ids s
                           | RouterHook _ => s
                           end) hs s).
Proof.
  intros H. destruct (token_fold_keeps ids hs s) as [A B].
  unfold Rows.emitted_rows_have in *. rewrite A, B. exact H.
Qed.

Lemma reachable_emitted_rows (exp : Q -> Q) (x : system) :
  reachable exp x -> Rows.emitted_rows_have get_experts_top_k (srv x).
Proof.
  induction 1 as [|x y Hr IH Hs].
  - split; constructor.
  - revert IH.
    destruct Hs as [tok s s' th rh fl H | tok s fl | ids output sel s s' fl Hfl Hsel H
                   | ids s fl Hfl | output sel s s' fl Hfl Hsel H | s fl Hne
                   | g th rh s fl1 fl2]; simpl; intros IH.
    + unfold generate_text_start in H. injection H as <- <- <-. exact IH.
    + exact IH.
    + unfold forward_step in H.
      apply (gate_fold_rows _ sel (hooks s) (selection_rows exp output sel Hsel) _ _ H).
      intros s0 E. injection E as <-. apply token_fold_rows. exact IH.
    + apply token_fold_rows. exact IH.
    + apply (gate_fold_rows _ sel (hooks s) (selection_rows exp output sel Hsel) _ _ H).
      intros s0 E. injection E as <-. exact IH.
    + unfold process_routing_queue_step.
      destruct (routing_queue s) as [|d rest] eqn:E; [exact IH|].
      destruct IH as [Hq Hp]. rewrite E in Hq.
      inversion Hq as [|? ? Hd Hrest]; subst.
      split; simpl; [exact Hrest|].
      apply Forall_app. split; [exact Hp|]. constructor; [exact Hd|constructor].
    + destruct g; simpl; [|exact IH].
      destruct IH as [Hq Hp]. split; [exact Hq|].
      apply Forall_app. split; [exact Hp|]. constructor; [exact I|constructor].
Qed.

(** C8. Every routing record the server emits lists 4 selected experts in
    each token row: [get_experts] passes [top_k=4], which is the [top_k] of
    the Qwen configuration, whatever the router output; this holds of every
    record queued or published in every reachable state of the server.  A
    request for a model without [layers[0].mlp.gate] (the Mixtral layout,
    configured with [top_k=2]) raises before installing any router probe, so
    no Mixtral session emits a record. *)
Theorem emitted_records_have_configured_top_k :
  (forall (exp : Q -> Q) (x : system),
     reachable exp x -> Rows.emitted_rows_have get_experts_top_k (srv x))
  /\ (forall (exp : Q -> Q) (output : tensor) (sel : sel_tensor),
        get_experts_selection_ok exp output sel = true ->
        Rows.sel_rows_have get_experts_top_k sel)
  /\ option_map (fun c => top_k (ModelAdapter_init c))
       (lookup_config "qwen-1.5-moe-a2.7b" MODEL_CONFIGS)
     = Some (PInt (Z.of_nat get_experts_top_k))
  /\ (forall (Obj : Type) (getattr : Obj -> string -> option Obj)
        (getitem : Obj -> Z -> option Obj) (model : Obj) (tok : tokenizer) (st : state),
        layer_gate_of Obj getattr getitem model 0 = None ->
        exists st' added,
          generate_text_start_on Obj getattr getitem (Some (model, tok)) st = StartFailed st'
          /\ hooks st' = hooks st ++ added
          /\ Forall (fun h => hkind h = TokenHook) added
          /\ routing_queue st' = routing_queue st
          /\ published st' = published st).
Proof.
  refine (conj reachable_emitted_rows (conj selection_rows (conj eq_refl _))).
  intros Obj getattr getitem model tok st Hg.
  unfold generate_text_start_on. simpl.
  destruct (embed_tokens_of Obj getattr model) as [e|].
  - simpl. rewrite Hg. eexists. exists [{| hid := next_hid st; hkind := TokenHook |}].
    refine (conj eq_refl (conj eq_refl (conj _ (conj eq_refl eq_refl)))).
    constructor; [reflexivity|constructor].
  - eexists. exists [].
    refine (conj eq_refl (conj _ (conj (Forall_nil _) (conj eq_refl eq_refl)))).
    symmetry. apply app_nil_r.
Qed.

Lemma emitted_records_have_configured_top_k_witness :
  Rows.sel_rows_have get_experts_top_k (S2 [[0; 1; 2; 3]])
  /\ exists st',
       generate_text_start_on toy_obj toy_mixtral_getattr toy_getitem
         (Some (TModel, demo_tokenizer)) init_state = StartFailed st'.
Proof.
  destruct emitted_records_have_configured_top_k as (_ & Hsel & _ & Hmix).
  split.
  - apply (Hsel exp_model (T2 [[4; 3; 2; 1; 0]%Q])). vm_compute. reflexivity.
  - destruct (Hmix toy_obj toy_mixtral_getattr toy_getitem TModel demo_tokenizer init_state
                eq_refl) as (st' & _ & H & _).
    exists st'. exact H.
Defined.

(** C9 (code_bug). [tokens_queue.empty()] only tests the queue and its
    result is dropped: a session start leaves [tokens_queue] as it finds it.
    A forward pass that raises between the [embed_tokens] pre-hook and the
    layer-0 gate leaves its batch queued; the next session then starts with
    that batch pending, and its first record carries it instead of the
    session's own tokens. *)
Theorem generate_text_start_keeps_pending_tokens :
  (forall (tok : tokenizer) (st : state),
     exists st' th rh,
       generate_text_start (Some tok) st = Started st' th rh
       /\ tokens_queue st' = tokens_queue st)
  /\ exists x st' th rh st'',
       reachable exp_model x
       /\ inflight x = []
       /\ tokens_queue (srv x) = [[7%Z]]
       /\ generate_text_start (Some demo_tokenizer) (srv x) = Started st' th rh
       /\ tokens_queue st' = [[7%Z]]
       /\ forward_step [9%Z] (S2 [[0; 1; 2; 3]]) st' = Some st''
       /\ map (json_get "tokens") (routing_queue st'')
          = [Some (JList [JInt 7]); Some (JList [JInt 9])].
Proof.
  split.
  - intros tok st. do 3 eexists. split; reflexivity.
  - exists {| srv := fst (generate_text_finish GenRaised 0 1 (embed_pre_hooks [7%Z] demo_state));
              inflight := [] ++ [] |}.
    do 4 eexists. split.
    + apply (reach_step exp_model {| srv := embed_pre_hooks [7%Z] demo_state;
                                     inflight := [] ++ (0, 1) :: [] |}).
      * apply (reach_step exp_model {| srv := demo_state; inflight := [(0, 1)] |}).
        -- apply (reach_step exp_model init_system); [constructor|].
           exact (SysRequest exp_model demo_tokenizer init_state demo_state 0 1 [] eq_refl).
        -- apply (SysEmbed exp_model [7%Z] demo_state [(0, 1)]). discriminate.
      * apply (SysFinish exp_model GenRaised 0 1 _ [] []).
    + split; [reflexivity|]. split; [reflexivity|]. split; [reflexivity|].
      split; [reflexivity|]. split; reflexivity.
Qed.

End ServerFacts.

Module PathFacts.

Import PathResolver.

Lemma str_contains_app (c : ascii) (s t : string) :
  str_contains c (s ++ t) = str_contains c s || str_contains c t.
Proof.
  induction s as [|a s IH]; simpl; [reflexivity|].
  rewrite IH, orb_assoc. reflexivity.
Qed.

Lemma str_length_app (s t : string) :
  String.length (s ++ t) = String.length s + String.length t.
Proof. induction s as [|a s IH]; simpl; [reflexivity|]. rewrite IH. reflexivity. Qed.

Lemma scan_bracket_app (s t : string) :
  str_contains rbracket s = false ->
  scan_bracket (s ++ String "]" t) = Some (s, t).
Proof.
  induction s as [|a s IH]; intros H; [reflexivity|].
  simpl in H. apply orb_false_iff in H as [Ha Hs].
  simpl. unfold rbracket in *. rewrite Ha, (IH Hs). reflexivity.
Qed.

Lemma split_parts_char (fuel : nat) (c : ascii) (r current : string) (parts : list part) :
  Ascii.eqb c lbracket = false -> Ascii.eqb c dot = false ->
  split_parts (S fuel) (String c r) current parts
  = split_parts fuel r (String.append current (String c "")) parts.
Proof. intros H1 H2. simpl. rewrite H1, H2. reflexivity. Qed.

Lemma split_parts_dot (fuel : nat) (r current : string) (parts : list part) :
  split_parts (S fuel) (String "." r) current parts = split_parts fuel r "" (flush current parts).
Proof. reflexivity. Qed.

Lemma split_parts_bracket (fuel : nat) (s t current : string) (parts : list part) :
  str_contains rbracket s = false ->
  split_parts (S fuel) (String "[" (s ++ String "]" t)) current parts
  = split_parts fuel t "" (flush current parts ++ [PEvalIndex s]).
Proof.
  intros Hs. cbn [split_parts]. rewrite (scan_bracket_app s t Hs). reflexivity.
Qed.

Lemma path_app_assoc (a b c : string) : ((a ++ b) ++ c)%string = (a ++ (b ++ c))%string.
Proof. induction a as [|x a IH]; simpl; [reflexivity|]. rewrite IH. reflexivity. Qed.

Lemma path_app_nil_r (a : string) : (a ++ "")%string = a.
Proof. induction a as [|x a IH]; simpl; [reflexivity|]. rewrite IH. reflexivity. Qed.

Lemma bracket_path_cons_app (t c : string) (segs : list (string * string)) (w : string) :
  (bracket_path ((t, c) :: segs) ++ w)%string
  = (t ++ String "[" (c ++ String "]" (bracket_path segs ++ w)))%string.
Proof.
  cbn [bracket_path]. rewrite path_app_assoc. simpl. rewrite path_app_assoc. reflexivity.
Qed.

Lemma str_first_occurrence (ch : ascii) (s : string) :
  str_contains ch s = true ->
  exists t r, s = (t ++ String ch r)%string /\ str_contains ch t = false.
Proof.
  induction s as [|a s IH]; simpl; [discriminate|]. intros H.
  destruct (Ascii.eqb a ch) eqn:E.
  - apply Ascii.eqb_eq in E. subst. exists "", s. split; reflexivity.
  - destruct (IH H) as (t & r & -> & Ht). exists (String a t), r.
    split; [reflexivity|]. simpl. rewrite E, Ht. reflexivity.
Qed.

Lemma str_contains_mid (ch : ascii) (s r : string) :
  str_contains ch (s ++ String ch r) = true.
Proof.
  rewrite str_contains_app. simpl. rewrite Ascii.eqb_refl. apply orb_true_r.
Qed.

Lemma scan_bracket_none (s : string) :
  str_contains rbracket s = false -> scan_bracket s = None.
Proof.
  induction s as [|a s IH]; intros H; [reflexivity|].
  simpl in H. apply orb_false_iff in H as [Ha Hs].
  simpl. unfold rbracket in *. rewrite Ha, (IH Hs). reflexivity.
Qed.

Lemma index_contents_app (p q : list part) :
  index_contents (p ++ q) = index_contents p ++ index_contents q.
Proof.
  induction p as [|[n|c] p IH]; simpl; [reflexivity|exact IH|rewrite IH; reflexivity].
Qed.

Lemma index_contents_flush (cur : string) (parts : list part) :
  index_contents (flush cur parts) = index_contents parts.
Proof.
  unfold flush. destruct (String.eqb cur ""); [reflexivity|].
  rewrite index_contents_app. apply app_nil_r.
Qed.

Lemma index_contents_map_attr (l : list string) : index_contents (map PAttr l) = [].
Proof. induction l as [|n l IH]; [reflexivity|exact IH]. Qed.

(** Text with no closing bracket adds no [eval]ed part. *)
Lemma split_parts_no_rbracket (fuel : nat) (v cur : string) (parts : list part) :
  str_contains rbracket v = false ->
  index_contents (split_parts fuel v cur parts) = index_contents parts.
Proof.
  revert v cur parts. induction fuel as [|fuel IH]; intros v cur parts Hv.
  - apply index_contents_flush.
  - destruct v as [|c r]; [apply index_contents_flush|].
    simpl in Hv. apply orb_false_iff in Hv as [_ Hr].
    cbn [split_parts].
    destruct (Ascii.eqb c lbracket).
    + rewrite (scan_bracket_none r Hr). rewrite IH by exact Hr. apply index_contents_flush.
    + destruct (Ascii.eqb c dot); rewrite IH by exact Hr; [apply index_contents_flush|reflexivity].
Qed.

(** Text with no opening bracket is consumed a character per iteration and
    adds no [eval]ed part. *)
Lemma split_parts_no_lbracket (t rest cur : string) (fuel : nat) (parts : list part) :
  str_contains lbracket t = false ->
  exists cur' parts',
    split_parts (String.length t + fuel) (t ++ rest) cur parts
    = split_parts fuel rest cur' parts'
    /\ index_contents parts' = index_contents parts.
Proof.
  revert cur parts. induction t as [|c t IH]; intros cur parts Ht.
  - exists cur, parts. split; reflexivity.
  - simpl in Ht. apply orb_false_iff in Ht as [Hc Ht].
    simpl. rewrite Hc.
    destruct (Ascii.eqb c dot).
    + destruct (IH "" (flush cur parts) Ht) as (cur' & parts' & E & I).
      exists cur', parts'. split; [exact E|]. rewrite I. apply index_contents_flush.
    + exact (IH (String.append cur (String c "")) parts Ht).
Qed.

Lemma split_parts_segs (segs : list (string * string)) (rest : string) :
  Forall (fun '(t, c) => str_contains lbracket t = false /\ str_contains rbracket c = false)
    segs ->
  forall extra cur parts, exists k cur' parts',
    split_parts (String.length (bracket_path segs) + extra) (bracket_path segs ++ rest) cur parts
    = split_parts (k + extra) rest cur' parts'
    /\ index_contents parts' = index_contents parts ++ map snd segs.
Proof.
  induction segs as [|[t c] segs IH]; intros Hs extra cur parts.
  - exists 0, cur, parts. split; [reflexivity|]. symmetry. apply app_nil_r.
  - inversion Hs as [|? ? Htc Hs']; subst. destruct Htc as [Ht Hc].
    rewrite bracket_path_cons_app.
    assert (El : String.length (bracket_path ((t, c) :: segs)) + extra
                 = String.length t
                   + S (String.length (bracket_path segs) + (String.length c + 1 + extra))).
    { cbn [bracket_path]. rewrite str_length_app. simpl. rewrite str_length_app. simpl. lia. }
    rewrite El.
    destruct (split_parts_no_lbracket t (String "[" (c ++ String "]" (bracket_path segs ++ rest)))
                cur (S (String.length (bracket_path segs) + (String.length c + 1 + extra)))
                parts Ht) as (cur1 & parts1 & E1 & I1).
    rewrite E1, (split_parts_bracket _ c _ cur1 parts1 Hc).
    destruct (IH Hs' (String.length c + 1 + extra) "" (flush cur1 parts1 ++ [PEvalIndex c]))
      as (k & cur2 & parts2 & E2 & I2).
    exists (k + (String.length c + 1)), cur2, parts2. split.
    + replace (k + (String.length c + 1) + extra) with (k + (String.length c + 1 + extra))
        by lia.
      exact E2.
    + rewrite I2, index_contents_app, index_contents_flush, I1.
      simpl. rewrite <- !app_assoc. reflexivity.
Qed.

(** Every path is a run of segments [t[c]] followed by a text [u v]. *)
Lemma path_decomposes (n : nat) (s : string) :
  String.length s <= n ->
  exists segs u v,
    Forall (fun '(t, c) => str_contains lbracket t = false /\ str_contains rbracket c = false)
      segs
    /\ str_contains lbracket u = false /\ str_contains rbracket v = false
    /\ s = (bracket_path segs ++ u ++ v)%string.
Proof.
  revert s. induction n as [|n IH]; intros s Hn.
  - destruct s as [|a s]; [|simpl in Hn; lia].
    exists [], "", "". exact (conj (Forall_nil _) (conj eq_refl (conj eq_refl eq_refl))).
  - destruct (str_contains lbracket s) eqn:Hl.
    2: { exists [], s, "". refine (conj (Forall_nil _) (conj Hl (conj eq_refl _))).
         simpl. symmetry. apply path_app_nil_r. }
    destruct (str_first_occurrence lbracket s Hl) as (t & r & Es & Ht).
    destruct (str_contains rbracket r) eqn:Hr.
    2: { exists [], t, (String lbracket r).
         refine (conj (Forall_nil _) (conj Ht (conj _ Es))).
         simpl. rewrite Hr. reflexivity. }
    destruct (str_first_occurrence rbracket r Hr) as (c & rest & Er & Hc).
    assert (Hlen : String.length rest <= n).
    { subst. rewrite str_length_app in Hn. simpl in Hn.
      rewrite str_length_app in Hn. simpl in Hn. lia. }
    destruct (IH rest Hlen) as (segs & u & v & Hs & Hu & Hv & Erest).
    exists ((t, c) :: segs), u, v.
    refine (conj (Forall_cons (t, c) (conj Ht Hc) Hs) (conj Hu (conj Hv _))).
    rewrite bracket_path_cons_app, Es, Er, <- Erest. reflexivity.
Qed.

Lemma eval_parts_none (Val : Type) (py_eval : string -> option Val) (ps : list part) :
  eval_parts Val py_eval ps = None <-> Exists (fun c => py_eval c = None) (index_contents ps).
Proof.
  induction ps as [|[n|c] ps IH]; simpl.
  - split; [discriminate|intros H; inversion H].
  - rewrite <- IH. destruct (eval_parts Val py_eval ps); split; intros H;
      try discriminate; reflexivity.
  - rewrite Exists_cons, <- IH.
    destruct (py_eval c); destruct (eval_parts Val py_eval ps); split;
      try (intros [H|H]); intros; try discriminate; auto.
Qed.

Lemma eval_parts_some (Val : Type) (py_eval : string -> option Val) (ps : list part)
    (steps : list (step Val)) :
  eval_parts Val py_eval ps = Some steps -> Forall2 (part_step Val py_eval) ps steps.
Proof.
  revert steps. induction ps as [|[n|c] ps IH]; intros steps H; simpl in H.
  - injection H as <-. constructor.
  - destruct (eval_parts Val py_eval ps) eqn:E; [|discriminate].
    injection H as <-. constructor; [reflexivity|apply IH; reflexivity].
  - destruct (py_eval c) eqn:Ec; [|discriminate].
    destruct (eval_parts Val py_eval ps) eqn:E; [|discriminate].
    injection H as <-. constructor; [exact Ec|apply IH; reflexivity].
Qed.

(** C2 (amended). Every path is a run of segments [t[c]], no opening
    bracket in [t] and no closing bracket in [c], followed by a text [u v],
    no opening bracket in [u] and no closing bracket in [v]: the [c] are the
    bracketed substrings, each the text from an opening bracket to the next
    closing one.  The resolver hands exactly these, verbatim and in order, to
    [eval] before any attribute access; it fails when one of them fails to
    evaluate, and otherwise indexes with each result where its bracket
    stood.  Nothing restricts them to integer literals. *)
Theorem resolve_module_path_evals_bracket (Obj Val : Type)
    (getattr : Obj -> string -> option Obj) (getitem : Obj -> Val -> option Obj)
    (py_eval : string -> option Val) (model : Obj) (path : string) :
  exists segs u v,
    path = (bracket_path segs ++ u ++ v)%string
    /\ Forall (fun '(t, c) => str_contains lbracket t = false
                              /\ str_contains rbracket c = false) segs
    /\ str_contains lbracket u = false /\ str_contains rbracket v = false
    /\ index_contents (path_parts path) = map snd segs
    /\ (eval_parts Val py_eval (path_parts path) = None
        <-> Exists (fun c => py_eval c = None) (map snd segs))
    /\ (forall steps, eval_parts Val py_eval (path_parts path) = Some steps ->
          Forall2 (part_step Val py_eval) (path_parts path) steps
          /\ resolve_module_path Obj Val getattr getitem py_eval model path
             = walk Obj Val getattr getitem model steps).
Proof.
  destruct (path_decomposes (String.length path) path (le_n _))
    as (segs & u & v & Hs & Hu & Hv & Ep).
  assert (Hidx : index_contents (path_parts path) = map snd segs).
  { subst path. unfold path_parts.
    destruct (str_contains lbracket (bracket_path segs ++ u ++ v)
              && str_contains rbracket (bracket_path segs ++ u ++ v)) eqn:Hb.
    - replace (S (String.length (bracket_path segs ++ u ++ v)))
        with (String.length (bracket_path segs) + S (String.length u + String.length v))
        by (rewrite !str_length_app; lia).
      destruct (split_parts_segs segs (u ++ v) Hs (S (String.length u + String.length v)) "" [])
        as (k & cur1 & parts1 & E1 & I1).
      rewrite E1.
      replace (k + S (String.length u + String.length v))
        with (String.length u + (k + S (String.length v))) by lia.
      destruct (split_parts_no_lbracket u v cur1 (k + S (String.length v)) parts1 Hu)
        as (cur2 & parts2 & E2 & I2).
      rewrite E2, (split_parts_no_rbracket _ v cur2 parts2 Hv), I2, I1. reflexivity.
    - rewrite index_contents_map_attr.
      destruct segs as [|[t c] segs']; [reflexivity|].
      exfalso. rewrite bracket_path_cons_app in Hb.
      rewrite str_contains_mid in Hb. simpl in Hb.
      rewrite str_contains_app in Hb. simpl in Hb.
      rewrite str_contains_mid, orb_true_r in Hb. discriminate. }
  exists segs, u, v.
  refine (conj Ep (conj Hs (conj Hu (conj Hv (conj Hidx (conj _ _)))))).
  - rewrite eval_parts_none, Hidx. reflexivity.
  - intros steps H. split; [exact (eval_parts_some Val py_eval _ steps H)|].
    unfold resolve_module_path. rewrite H. reflexivity.
Qed.

(** C2 counterexample: in [model.layers[1+1].mlp.gate] the bracket content
    [1+1] is no integer literal, yet the resolver passes it to [eval]. *)
Lemma bracket_content_not_literal_is_evaluated :
  In (PEvalIndex "1+1") (path_parts "model.layers[1+1].mlp.gate")
  /\ is_nonneg_int_literal "1+1" = false.
Proof. split; [simpl; tauto|reflexivity]. Qed.

End PathFacts.

(** * Further properties of the code *)

Module ServerRunFacts.

Import Server.

Lemma state_ext (a b : state) :
  tokens_queue a = tokens_queue b -> routing_queue a = routing_queue b ->
  hooks a = hooks b -> next_hid a = next_hid b ->
  current_tokenizer a = current_tokenizer b -> published a = published b -> a = b.
Proof. destruct a, b; simpl; intros; subst; reflexivity. Qed.

Lemma relay_idle (n : nat) (st : state) :
  routing_queue st = [] -> Nat.iter n process_routing_queue_step st = st.
Proof.
  intros H. induction n as [|n IH]; [reflexivity|].
  simpl. rewrite IH. unfold process_routing_queue_step. rewrite H. reflexivity.
Qed.

(** Successive iterations of [process_routing_queue]'s loop, with no probe
    firing in between, publish the queued records one by one in queue order:
    after [n] iterations the first [n] records have been emitted as
    [routing_update] events, in order, and the rest are still queued. *)
Theorem relay_publishes_in_queue_order (n : nat) (st : state) :
  let st' := Nat.iter n process_routing_queue_step st in
  published st' = published st ++ map RoutingUpdate (firstn n (routing_queue st))
  /\ routing_queue st' = skipn n (routing_queue st)
  /\ tokens_queue st' = tokens_queue st
  /\ hooks st' = hooks st.
Proof.
  revert st. induction n as [|n IH]; intros st; cbv zeta.
  - simpl. rewrite app_nil_r. repeat split; reflexivity.
  - rewrite Nat.iter_succ_r.
    destruct (routing_queue st) as [|d rest] eqn:Hq.
    + assert (E : process_routing_queue_step st = st)
        by (unfold process_routing_queue_step; rewrite Hq; reflexivity).
      rewrite E, relay_idle by exact Hq.
      rewrite Hq. simpl. rewrite app_nil_r. repeat split; reflexivity.
    + assert (E : process_routing_queue_step st = emit (RoutingUpdate d) (set_routing_queue rest st))
        by (unfold process_routing_queue_step; rewrite Hq; reflexivity).
      rewrite E.
      destruct (IH (emit (RoutingUpdate d) (set_routing_queue rest st))) as (H1 & H2 & H3 & H4).
      simpl in H1, H2, H3, H4. repeat split.
      * rewrite H1. rewrite <- app_assoc. reflexivity.
      * exact H2.
      * exact H3.
      * exact H4.
Qed.

End ServerRunFacts.

Module AdapterFacts.

Import Adapters.

Lemma str_app_assoc (a b c : string) : ((a ++ b) ++ c)%string = (a ++ (b ++ c))%string.
Proof. induction a as [|x a IH]; simpl; [reflexivity|]. rewrite IH. reflexivity. Qed.

Lemma str_app_nil_r (a : string) : (a ++ "")%string = a.
Proof. induction a as [|x a IH]; simpl; [reflexivity|]. rewrite IH. reflexivity. Qed.

Lemma fmt_prepend_app (p q : string) (r : fmt_result) :
  fmt_prepend p (fmt_prepend q r) = fmt_prepend (p ++ q) r.
Proof. destruct r; simpl; try reflexivity. rewrite str_app_assoc. reflexivity. Qed.

Lemma fmt_prepend_nil (r : fmt_result) : fmt_prepend "" r = r.
Proof. destruct r; reflexivity. Qed.

Lemma no_char_in_cons (cs : list ascii) (c : ascii) (r : string) :
  no_char_in cs (String c r) = true ->
  existsb (Ascii.eqb c) cs = false /\ no_char_in cs r = true.
Proof.
  simpl. intros H. apply andb_prop in H as [H1 H2]. apply negb_true_iff in H1. auto.
Qed.

Lemma existsb_eqb_false (c d : ascii) (cs : list ascii) :
  existsb (Ascii.eqb c) cs = false -> In d cs -> Ascii.eqb c d = false.
Proof.
  intros H Hin. destruct (Ascii.eqb c d) eqn:E; [|reflexivity].
  rewrite <- H. symmetry. apply existsb_exists. eauto.
Qed.

(** Literal text without braces is copied. *)
Lemma format_lit_app (v a s : string) :
  brace_free a = true -> format_aux v Lit (a ++ s) = fmt_prepend a (format_aux v Lit s).
Proof.
  unfold brace_free. induction a as [|c a IH]; intros H; simpl.
  - rewrite fmt_prepend_nil. reflexivity.
  - apply no_char_in_cons in H as [Hc Ha]. simpl in Hc.
    apply orb_false_iff in Hc as [H1 Hc]. apply orb_false_iff in Hc as [H2 _].
    rewrite H1, H2. rewrite IH by exact Ha. rewrite fmt_prepend_app. reflexivity.
Qed.

Lemma split_field_name_plain (name : string) :
  plain_field_name name = true -> split_field_name name = (name, "").
Proof.
  unfold plain_field_name. induction name as [|c r IH]; intros H; simpl; [reflexivity|].
  apply no_char_in_cons in H as [Hc Hr].
  rewrite (existsb_eqb_false c "."%char _ Hc), (existsb_eqb_false c "["%char _ Hc)
    by (simpl; tauto).
  simpl. rewrite IH by exact Hr. reflexivity.
Qed.

(** A plain field name is read up to its closing brace. *)
Lemma format_field_app (v acc name b : string) :
  plain_field_name name = true ->
  format_aux v (InField acc) (name ++ String "}" b)
  = match field_value v (acc ++ name) with
    | FmtOk s => fmt_prepend s (format_aux v Lit b)
    | r => r
    end.
Proof.
  unfold plain_field_name. revert acc. induction name as [|c r IH]; intros acc H; simpl.
  - rewrite str_app_nil_r. unfold field_step. simpl.
    destruct (field_value v acc); reflexivity.
  - apply no_char_in_cons in H as [Hc Hr].
    unfold field_step.
    rewrite (existsb_eqb_false c "{"%char _ Hc), (existsb_eqb_false c "["%char _ Hc),
      (existsb_eqb_false c "}"%char _ Hc), (existsb_eqb_false c ":"%char _ Hc),
      (existsb_eqb_false c "!"%char _ Hc) by (simpl; tauto).
    simpl. rewrite fmt_prepend_nil, IH by exact Hr.
    rewrite str_app_assoc. reflexivity.
Qed.

Lemma format_open_field (v name b : string) :
  plain_field_name name = true ->
  format_aux v Lit (String "{" (name ++ String "}" b))
  = match field_value v name with
    | FmtOk s => fmt_prepend s (format_aux v Lit b)
    | r => r
    end.
Proof.
  intros H. destruct name as [|c r].
  - reflexivity.
  - pose proof H as H'. unfold plain_field_name in H'.
    apply no_char_in_cons in H' as [Hc _]. simpl in Hc. apply orb_false_iff in Hc as [H1 _].
    change (format_aux v Lit (String "{" (String c r ++ String "}" b)))
      with (fmt_prepend "" (format_aux v AfterOpen (String c r ++ String "}" b))).
    rewrite fmt_prepend_nil. simpl. rewrite H1.
    change (match field_step v "" c with
            | inl (out, m') => fmt_prepend out (format_aux v m' (r ++ String "}" b))
            | inr res => res
            end)
      with (format_aux v (InField "") (String c r ++ String "}" b)).
    rewrite format_field_app by exact H. reflexivity.
Qed.

Lemma format_lit_all (v a : string) :
  brace_free a = true -> format_aux v Lit a = FmtOk a.
Proof.
  intros Ha. rewrite <- (str_app_nil_r a) at 1. rewrite format_lit_app by exact Ha.
  simpl. rewrite str_app_nil_r. reflexivity.
Qed.

Lemma format_layer_id_one_field (a b : string) (l : Z) :
  brace_free a = true -> brace_free b = true ->
  format_layer_id (a ++ "{layer_id}" ++ b) l = FmtOk (a ++ Server.z_to_string l ++ b).
Proof.
  intros Ha Hb. unfold format_layer_id. rewrite format_lit_app by exact Ha.
  change ("{layer_id}" ++ b)%string with (String "{" ("layer_id" ++ String "}" b)).
  rewrite format_open_field by reflexivity. simpl. rewrite format_lit_all by exact Hb.
  reflexivity.
Qed.

(** [template.format(layer_id=l)] as [get_router_path] uses it: text without
    braces is copied, the field [{layer_id}] becomes the decimal form of [l],
    a field with any other plain name raises (a [KeyError], or an
    [IndexError] for an empty or numeric name), and a template ending in a
    lone [{] or [}] raises [ValueError]. *)
Theorem format_layer_id_fields (a b name : string) (l : Z) :
  brace_free a = true -> brace_free b = true ->
  format_layer_id a l = FmtOk a
  /\ format_layer_id (a ++ "{layer_id}" ++ b) l = FmtOk (a ++ Server.z_to_string l ++ b)
  /\ (plain_field_name name = true -> name <> "layer_id" ->
      format_layer_id (a ++ "{" ++ name ++ "}" ++ b) l = FmtRaises)
  /\ format_layer_id (a ++ "{") l = FmtRaises
  /\ format_layer_id (a ++ "}") l = FmtRaises.
Proof.
  intros Ha Hb. unfold format_layer_id.
  pose proof (format_layer_id_one_field a b l Ha Hb) as Hf. unfold format_layer_id in Hf.
  set (v := Server.z_to_string l) in *.
  repeat split.
  - apply format_lit_all. exact Ha.
  - exact Hf.
  - intros Hn Hne. rewrite format_lit_app by exact Ha.
    change ("{" ++ name ++ "}" ++ b)%string with (String "{" (name ++ String "}" b)).
    rewrite format_open_field by exact Hn.
    unfold field_value. rewrite split_field_name_plain by exact Hn.
    apply String.eqb_neq in Hne. rewrite Hne. reflexivity.
  - rewrite format_lit_app by exact Ha. reflexivity.
  - rewrite format_lit_app by exact Ha. reflexivity.
Qed.

Lemma format_layer_id_fields_witness :
  brace_free "model.layers[" = true /\ brace_free "].mlp.gate" = true
  /\ plain_field_name "layer" = true /\ "layer" <> "layer_id"
  /\ format_layer_id ("model.layers[" ++ "{" ++ "layer" ++ "}" ++ "].mlp.gate") 3 = FmtRaises.
Proof.
  assert (Ha : brace_free "model.layers[" = true) by reflexivity.
  assert (Hb : brace_free "].mlp.gate" = true) by reflexivity.
  assert (Hn : plain_field_name "layer" = true) by reflexivity.
  assert (Hne : "layer" <> "layer_id") by discriminate.
  refine (conj Ha (conj Hb (conj Hn (conj Hne _)))).
  exact (proj1 (proj2 (proj2 (format_layer_id_fields _ _ "layer" 3 Ha Hb))) Hn Hne).
Defined.

End AdapterFacts.


Module AdapterFacts2.

Import Adapters AdapterFacts PathResolver PathFacts.

(** [get_model_adapter] never builds the base class: it returns a
    [QwenMoEAdapter] or a [MixtralAdapter] initialised with the given config
    when [model_type], lower-cased, is ["qwen"] or ["mixtral"], and raises
    otherwise ([ValueError] for any other string, a missing key included, and
    [AttributeError] for an integer).  So an adapter it returns never has the
    [model_type] attribute ['unknown'] that [__init__] defaults to. *)
Theorem get_model_adapter_dispatch (cfg : pydict) :
  match get_model_adapter cfg with
  | Ok a =>
      aclass a <> ModelAdapterBase /\ ainst a = ModelAdapter_init cfg
      /\ exists s, dict_get "model_type" cfg = Some (PStr s)
                   /\ model_type (ainst a) = PStr s
                   /\ ((py_lower s = "qwen" /\ aclass a = QwenMoEAdapter)
                       \/ (py_lower s = "mixtral" /\ aclass a = MixtralAdapter))
  | Raise ValueError =>
      dict_get "model_type" cfg = None
      \/ exists s, dict_get "model_type" cfg = Some (PStr s)
                   /\ py_lower s <> "qwen" /\ py_lower s <> "mixtral"
  | Raise AttributeError => exists z, dict_get "model_type" cfg = Some (PInt z)
  end.
Proof.
  unfold get_model_adapter.
  assert (Hm : model_type (ModelAdapter_init cfg) = dict_get_default "model_type" (PStr "unknown") cfg)
    by reflexivity.
  unfold dict_get_default in *.
  destruct (dict_get "model_type" cfg) as [[z|s]|] eqn:E.
  - exists z. reflexivity.
  - destruct (String.eqb (py_lower s) "qwen") eqn:Eq.
    + apply String.eqb_eq in Eq.
      split; [discriminate|]. split; [reflexivity|].
      exists s. split; [reflexivity|]. split; [exact Hm|]. left. split; [exact Eq|reflexivity].
    + destruct (String.eqb (py_lower s) "mixtral") eqn:Em.
      * apply String.eqb_eq in Em.
        split; [discriminate|]. split; [reflexivity|].
        exists s. split; [reflexivity|]. split; [exact Hm|]. right. split; [exact Em|reflexivity].
      * right. exists s. apply String.eqb_neq in Eq, Em. split; [reflexivity|]. split; assumption.
  - left. reflexivity.
Qed.

Lemma str_contains_string_of_uint (c : ascii) (d : Decimal.uint) :
  Ascii.eqb "0" c = false -> Ascii.eqb "1" c = false -> Ascii.eqb "2" c = false ->
  Ascii.eqb "3" c = false -> Ascii.eqb "4" c = false -> Ascii.eqb "5" c = false ->
  Ascii.eqb "6" c = false -> Ascii.eqb "7" c = false -> Ascii.eqb "8" c = false ->
  Ascii.eqb "9" c = false ->
  str_contains c (NilEmpty.string_of_uint d) = false.
Proof.
  intros H0 H1 H2 H3 H4 H5 H6 H7 H8 H9.
  induction d; cbn [NilEmpty.string_of_uint str_contains];
    rewrite ?H0, ?H1, ?H2, ?H3, ?H4, ?H5, ?H6, ?H7, ?H8, ?H9; cbn [orb]; assumption
    || reflexivity.
Qed.

(** The decimal form of an integer has no closing bracket. *)
Lemma z_to_string_no_rbracket (l : Z) : str_contains rbracket (Server.z_to_string l) = false.
Proof.
  unfold Server.z_to_string, NilZero.string_of_int, NilZero.string_of_uint.
  destruct (Z.to_int l) as [d|d]; destruct d; simpl;
    try reflexivity;
    apply str_contains_string_of_uint; reflexivity.
Qed.

Ltac layer_path_parts Hs :=
  unfold path_parts;
  lazymatch goal with
  | |- context [str_contains rbracket ?p] =>
      replace (str_contains rbracket p) with true
        by (simpl; rewrite str_contains_app, Hs; reflexivity)
  end;
  simpl andb; cbn [String.length String.append];
  rewrite str_length_app, Nat.add_comm; cbn [String.length Nat.add];
  repeat (rewrite split_parts_dot || (rewrite split_parts_bracket by exact Hs)
          || (rewrite split_parts_char by reflexivity));
  reflexivity.

Lemma path_parts_mlp_gate (s : string) :
  str_contains rbracket s = false ->
  path_parts ("model.layers[" ++ s ++ "].mlp.gate")
  = [PAttr "model"; PAttr "layers"; PEvalIndex s; PAttr "mlp"; PAttr "gate"].
Proof. intros Hs. layer_path_parts Hs. Qed.

Lemma path_parts_block_sparse_moe_gate (s : string) :
  str_contains rbracket s = false ->
  path_parts ("model.layers[" ++ s ++ "].block_sparse_moe.gate")
  = [PAttr "model"; PAttr "layers"; PEvalIndex s; PAttr "block_sparse_moe"; PAttr "gate"].
Proof. intros Hs. layer_path_parts Hs. Qed.

(** For every layer id [l], the router locations of [MODEL_CONFIGS] give the
    path [model.layers[l].mlp.gate] (Qwen) or
    [model.layers[l].block_sparse_moe.gate] (Mixtral), which the resolver
    splits into [model], [layers], an index [eval(str(l))], the MoE block
    and [gate]. *)
Theorem shipped_router_paths (l : Z) :
  let s := Server.z_to_string l in
  option_map (fun c => get_router_path (ModelAdapter_init c) l)
    (lookup_config "qwen-1.5-moe-a2.7b" MODEL_CONFIGS)
  = Some (FmtOk ("model.layers[" ++ s ++ "].mlp.gate"))
  /\ option_map (fun c => get_router_path (ModelAdapter_init c) l)
       (lookup_config "mixtral-8x7b" MODEL_CONFIGS)
     = Some (FmtOk ("model.layers[" ++ s ++ "].block_sparse_moe.gate"))
  /\ path_parts ("model.layers[" ++ s ++ "].mlp.gate")
     = [PAttr "model"; PAttr "layers"; PEvalIndex s; PAttr "mlp"; PAttr "gate"]
  /\ path_parts ("model.layers[" ++ s ++ "].block_sparse_moe.gate")
     = [PAttr "model"; PAttr "layers"; PEvalIndex s; PAttr "block_sparse_moe"; PAttr "gate"].
Proof.
  intros s. pose proof (z_to_string_no_rbracket l) as Hs. fold s in Hs.
  split; [|split; [|split]].
  - simpl option_map. unfold get_router_path. simpl dict_get_default.
    exact (f_equal Some
             (format_layer_id_one_field "model.layers[" "].mlp.gate" l eq_refl eq_refl)).
  - simpl option_map. unfold get_router_path. simpl dict_get_default.
    exact (f_equal Some
             (format_layer_id_one_field "model.layers[" "].block_sparse_moe.gate" l
                eq_refl eq_refl)).
  - apply path_parts_mlp_gate. exact Hs.
  - apply path_parts_block_sparse_moe_gate. exact Hs.
Qed.



(** [ModelAdapter.get_token_hook]'s hook is [get_token()]'s hook of the
    server, and the router hook of [QwenMoEAdapter] and [MixtralAdapter]
    (given the same selected experts and, as tokenizer, the server's
    [current_tokenizer]) is [get_experts(layer_id)]'s hook: the same queue
    operations and the same routing record, blocking in the same case. *)
Theorem adapter_probes_match_server_probes (ids : list Z) (l : nat) (sel : sel_tensor)
    (st : Server.state) :
  Server.get_token_hook ids st
  = Server.set_tokens_queue (adapter_token_hook ids (Server.tokens_queue st)) st
  /\ Server.get_experts_hook l sel st
     = match adapter_router_hook (Z.of_nat l) (Server.current_tokenizer st) sel
               (Server.tokens_queue st) (Server.routing_queue st) with
       | Some (tq, rq) => Some (Server.set_routing_queue rq (Server.set_tokens_queue tq st))
       | None => None
       end.
Proof.
  split; [reflexivity|].
  unfold Server.get_experts_hook, adapter_router_hook, adapter_routing_data.
  destruct (Server.tokens_queue st) as [|tokens rest]; [reflexivity|].
  destruct (Server.current_tokenizer st); reflexivity.
Qed.

End AdapterFacts2.

Module LoaderFacts.

Import Loader.

Lemma assoc_get_set_eq {V : Type} (k : string) (v : V) (d : list (string * V)) :
  assoc_get k (assoc_set k v d) = Some v.
Proof.
  induction d as [|[k' v'] d IH]; simpl.
  - rewrite String.eqb_refl. reflexivity.
  - destruct (String.eqb k' k) eqn:E; simpl; rewrite E; [reflexivity|exact IH].
Qed.

Lemma assoc_get_set_neq {V : Type} (k k' : string) (v : V) (d : list (string * V)) :
  k' <> k -> assoc_get k' (assoc_set k v d) = assoc_get k' d.
Proof.
  intros Hne. induction d as [|[k0 v0] d IH]; simpl.
  - apply String.eqb_neq in Hne. rewrite String.eqb_sym, Hne. reflexivity.
  - destruct (String.eqb k0 k) eqn:E; simpl.
    + apply String.eqb_eq in E. subst k0.
      apply String.eqb_neq in Hne. rewrite String.eqb_sym, Hne. reflexivity.
    + destruct (String.eqb k0 k'); [reflexivity|exact IH].
Qed.

(** [load_model] never loads on failure: an unknown id raises [ValueError];
    a known id that is not cached, whose config has no ["path"] or whose
    model or tokenizer fails to load, returns [None].  In both cases the cache
    is unchanged, and [generate_text] fails at the unpacking before touching
    the server state. *)
Theorem load_model_failures (Model : Type) (configs : list (string * pydict))
    (cache : list (string * (Model * Server.tokenizer))) (model_id : string)
    (fm : pyval -> option Model) (ft : pyval -> option Server.tokenizer) (st : Server.state) :
  (lookup_config model_id configs = None ->
   load_model Model Server.tokenizer configs cache model_id fm ft = (LoadRaised ValueError, cache))
  /\ (forall cfg, lookup_config model_id configs = Some cfg -> assoc_get model_id cache = None ->
      match dict_get "path" cfg with
      | None => True
      | Some p => fm p = None \/ ft p = None
      end ->
      load_model Model Server.tokenizer configs cache model_id fm ft = (LoadReturned None, cache))
  /\ (forall res cache',
      load_model Model Server.tokenizer configs cache model_id fm ft = (res, cache') ->
      (res = LoadRaised ValueError \/ res = LoadReturned None) ->
      cache' = cache
      /\ Server.generate_text_start (unpack_tokenizer Model Server.tokenizer res) st
         = Server.StartFailed st).
Proof.
  unfold load_model.
  split; [|split].
  - intros H. rewrite H. reflexivity.
  - intros cfg Hc Hn Hp. rewrite Hc, Hn.
    destruct (dict_get "path" cfg) as [p|]; [|reflexivity].
    destruct Hp as [Hp|Hp].
    + rewrite Hp. reflexivity.
    + destruct (fm p); [rewrite Hp|]; reflexivity.
  - intros res cache' H Hr.
    destruct (lookup_config model_id configs) as [cfg|];
      [|injection H as <- <-; split; reflexivity].
    destruct (assoc_get model_id cache) as [v|];
      [injection H as <- <-; destruct Hr; discriminate|].
    destruct (dict_get "path" cfg) as [p|]; [|injection H as <- <-; split; reflexivity].
    destruct (fm p) as [m|]; [|injection H as <- <-; split; reflexivity].
    destruct (ft p) as [t|]; [|injection H as <- <-; split; reflexivity].
    injection H as <- <-. rewrite assoc_get_set_eq in Hr. destruct Hr; discriminate.
Qed.

Lemma load_model_failures_witness :
  lookup_config "gpt2" MODEL_CONFIGS = None
  /\ load_model unit Server.tokenizer MODEL_CONFIGS [] "gpt2" (fun _ => Some tt) (fun _ => None)
     = (LoadRaised ValueError, [])
  /\ lookup_config "mixtral-8x7b" MODEL_CONFIGS = Some (snd (nth 1 MODEL_CONFIGS ("", [])))
  /\ load_model unit Server.tokenizer MODEL_CONFIGS [] "mixtral-8x7b" (fun _ => Some tt)
       (fun _ => None)
     = (LoadReturned None, []).
Proof.
  pose proof (load_model_failures unit MODEL_CONFIGS [] "gpt2" (fun _ => Some tt) (fun _ => None)
                Server.init_state) as [H1 _].
  pose proof (load_model_failures unit MODEL_CONFIGS [] "mixtral-8x7b" (fun _ => Some tt)
                (fun _ => None) Server.init_state) as [_ [H2 _]].
  refine (conj eq_refl (conj (H1 eq_refl) (conj eq_refl _))).
  apply (H2 _ eq_refl eq_refl). simpl. right. reflexivity.
Defined.

(** The cache of [load_model]: a cached id is returned whatever the loaders
    would do; a first successful load returns the new pair, stores it under
    its id only, and every later call for that id returns it without loading. *)
Theorem load_model_cache (Model Tok : Type) (configs : list (string * pydict))
    (cache : list (string * (Model * Tok))) (model_id : string) (cfg : pydict)
    (fm : pyval -> option Model) (ft : pyval -> option Tok) :
  lookup_config model_id configs = Some cfg ->
  (forall v, assoc_get model_id cache = Some v ->
     load_model Model Tok configs cache model_id fm ft = (LoadReturned (Some v), cache))
  /\ (forall p m t, assoc_get model_id cache = None -> dict_get "path" cfg = Some p ->
      fm p = Some m -> ft p = Some t ->
      let cache' := snd (load_model Model Tok configs cache model_id fm ft) in
      fst (load_model Model Tok configs cache model_id fm ft) = LoadReturned (Some (m, t))
      /\ assoc_get model_id cache' = Some (m, t)
      /\ (forall id', id' <> model_id -> assoc_get id' cache' = assoc_get id' cache)
      /\ forall fm' ft', load_model Model Tok configs cache' model_id fm' ft'
                         = (LoadReturned (Some (m, t)), cache')).
Proof.
  intros Hc. split.
  - intros v Hv. unfold load_model. rewrite Hc, Hv. reflexivity.
  - intros p m t Hn Hp Hm Ht cache'.
    assert (E : load_model Model Tok configs cache model_id fm ft
                = (LoadReturned (Some (m, t)), assoc_set model_id (m, t) cache)).
    { unfold load_model. rewrite Hc, Hn, Hp, Hm, Ht, assoc_get_set_eq. reflexivity. }
    unfold cache'. rewrite E. simpl.
    split; [reflexivity|]. split; [apply assoc_get_set_eq|]. split.
    + intros id' Hne. apply assoc_get_set_neq. exact Hne.
    + intros fm' ft'. unfold load_model. rewrite Hc, assoc_get_set_eq. reflexivity.
Qed.

Lemma load_model_cache_witness :
  let fm := fun p : pyval => match p with PStr s => Some s | PInt _ => None end in
  let ft := fun p : pyval => match p with PStr s => Some (String.length s) | PInt _ => None end in
  lookup_config "qwen-1.5-moe-a2.7b" MODEL_CONFIGS = Some (snd (nth 0 MODEL_CONFIGS ("", [])))
  /\ assoc_get "qwen-1.5-moe-a2.7b" (@nil (string * (string * nat))) = None
  /\ dict_get "path" (snd (nth 0 MODEL_CONFIGS ("", []))) = Some (PStr "Qwen/Qwen1.5-MoE-A2.7B")
  /\ fst (load_model string nat MODEL_CONFIGS [] "qwen-1.5-moe-a2.7b" fm ft)
     = LoadReturned (Some ("Qwen/Qwen1.5-MoE-A2.7B", 22)).
Proof.
  intros fm ft.
  refine (conj eq_refl (conj eq_refl (conj eq_refl _))).
  exact (proj1 (proj2 (load_model_cache string nat MODEL_CONFIGS [] "qwen-1.5-moe-a2.7b"
                         (snd (nth 0 MODEL_CONFIGS ("", []))) fm ft eq_refl)
                  (PStr "Qwen/Qwen1.5-MoE-A2.7B") "Qwen/Qwen1.5-MoE-A2.7B" 22
                  eq_refl eq_refl eq_refl eq_refl)).
Defined.

End LoaderFacts.

Module ClientConfigFacts.

Import ClientConfig.

Lemma assoc_set_fresh {V : Type} (k : string) (v : V) (d : list (string * V)) :
  ~ In k (map fst d) -> assoc_set k v d = d ++ [(k, v)].
Proof.
  induction d as [|[k' v'] d IH]; intros H; [reflexivity|].
  simpl in *. destruct (String.eqb k' k) eqn:E.
  - apply String.eqb_eq in E. subst k'. exfalso. apply H. left. reflexivity.
  - rewrite IH by tauto. reflexivity.
Qed.

Lemma assoc_get_In_NoDup {V : Type} (k : string) (v : V) (d : list (string * V)) :
  NoDup (map fst d) -> In (k, v) d -> assoc_get k d = Some v.
Proof.
  induction d as [|[k' v'] d IH]; intros Hd Hin; [destruct Hin|].
  simpl in Hd. inversion Hd as [|? ? Hk Hd']; subst.
  simpl. destruct Hin as [Heq|Hin].
  - injection Heq as -> ->. rewrite String.eqb_refl. reflexivity.
  - destruct (String.eqb k' k) eqn:E.
    + apply String.eqb_eq in E. subst k'. exfalso. apply Hk.
      apply (in_map fst) in Hin. exact Hin.
    + apply IH; assumption.
Qed.

Lemma models_comprehension_spec (items : list (string * pydict)) (acc : list (string * cjson)) :
  NoDup (map fst acc ++ map fst items) ->
  match models_comprehension items acc with
  | Some res =>
      exists ms, res = acc ++ ms /\ map fst ms = map fst items
      /\ Forall (fun kc => exists n e, dict_get "name" (snd kc) = Some n
                           /\ dict_get "expert_count" (snd kc) = Some e
                           /\ In (fst kc, CObj [("name", cjson_of n); ("expertCount", cjson_of e)]) ms)
                items
  | None =>
      Exists (fun kc => dict_get "name" (snd kc) = None \/ dict_get "expert_count" (snd kc) = None)
        items
  end.
Proof.
  revert acc. induction items as [|[k c] r IH]; intros acc Hd.
  - exists []. rewrite app_nil_r. auto.
  - simpl. destruct (dict_get "name" c) as [n|] eqn:En; [|apply Exists_cons_hd; auto].
    destruct (dict_get "expert_count" c) as [e|] eqn:Ee; [|apply Exists_cons_hd; auto].
    simpl in Hd.
    assert (Hk : ~ In k (map fst acc)).
    { intros Hin. apply NoDup_remove_2 in Hd. apply Hd. apply in_or_app. left. exact Hin. }
    rewrite assoc_set_fresh by exact Hk.
    set (v := CObj [("name", cjson_of n); ("expertCount", cjson_of e)]).
    specialize (IH (acc ++ [(k, v)])).
    rewrite map_app, <- app_assoc in IH. specialize (IH Hd).
    destruct (models_comprehension r (acc ++ [(k, v)])) as [res|].
    + destruct IH as (ms & -> & Hf & Hall). exists ((k, v) :: ms).
      rewrite <- app_assoc. split; [reflexivity|]. split; [simpl; rewrite Hf; reflexivity|].
      constructor.
      * exists n, e. simpl. split; [exact En|]. split; [exact Ee|]. left. reflexivity.
      * eapply Forall_impl; [|exact Hall]. intros [k' c'] (n' & e' & H1 & H2 & H3).
        exists n', e'. split; [exact H1|]. split; [exact H2|]. right. exact H3.
    + apply Exists_cons_tl. exact IH.
Qed.

(** [get_client_config()] over configs with distinct ids: it raises
    ([KeyError]) exactly when some config lacks ["name"] or
    ["expert_count"]; otherwise ["models"] has the config ids in order, and
    each maps to exactly its ["name"] and its ["expert_count"] (as
    ["expertCount"]), nothing else of the config being exposed. *)
Theorem get_client_config_models (BASE_URL : string) (configs : list (string * pydict)) :
  NoDup (map fst configs) ->
  match get_client_config BASE_URL configs with
  | Some j =>
      exists models, j = CObj [("serverUrl", CStr BASE_URL); ("models", CObj models)]
      /\ map fst models = map fst configs
      /\ Forall (fun kc => exists n e, dict_get "name" (snd kc) = Some n
                           /\ dict_get "expert_count" (snd kc) = Some e
                           /\ assoc_get (fst kc) models
                              = Some (CObj [("name", cjson_of n); ("expertCount", cjson_of e)]))
                configs
  | None =>
      Exists (fun kc => dict_get "name" (snd kc) = None \/ dict_get "expert_count" (snd kc) = None)
        configs
  end.
Proof.
  intros Hd. unfold get_client_config.
  pose proof (models_comprehension_spec configs [] Hd) as H.
  destruct (models_comprehension configs []) as [res|]; [|exact H].
  destruct H as (ms & -> & Hf & Hall). exists ms. simpl.
  split; [reflexivity|]. split; [exact Hf|].
  eapply Forall_impl; [|exact Hall]. intros [k c] (n & e & H1 & H2 & H3).
  exists n, e. split; [exact H1|]. split; [exact H2|].
  apply assoc_get_In_NoDup; [rewrite Hf; exact Hd|exact H3].
Qed.

Lemma get_client_config_models_witness :
  NoDup (map fst MODEL_CONFIGS)
  /\ match get_client_config "http://0.0.0.0:8000" MODEL_CONFIGS with
     | Some j =>
         exists models, j = CObj [("serverUrl", CStr "http://0.0.0.0:8000"); ("models", CObj models)]
         /\ map fst models = map fst MODEL_CONFIGS
         /\ Forall (fun kc => exists n e, dict_get "name" (snd kc) = Some n
                              /\ dict_get "expert_count" (snd kc) = Some e
                              /\ assoc_get (fst kc) models
                                 = Some (CObj [("name", cjson_of n); ("expertCount", cjson_of e)]))
                   MODEL_CONFIGS
     | None =>
         Exists (fun kc => dict_get "name" (snd kc) = None \/ dict_get "expert_count" (snd kc) = None)
           MODEL_CONFIGS
     end.
Proof.
  assert (Hd : NoDup (map fst MODEL_CONFIGS)).
  { simpl. constructor; [simpl; intros [H|[]]; discriminate|].
    constructor; [intros []|constructor]. }
  split; [exact Hd|]. exact (get_client_config_models "http://0.0.0.0:8000" MODEL_CONFIGS Hd).
Defined.

End ClientConfigFacts.
